(** * Value screener: the metric engine and the threshold filter of [App.py]

    A shallow embedding of the ticker parser, of [fetch_yf_info], of
    [compute_metrics], of the filter mask block and of the "Run Screener"
    handler, followed by the properties of the specification that concern
    them and by further properties of the code.

    Python floats are IEEE 754 binary64 numbers: they are Rocq's primitive
    floats, whose operations round as the hardware does.  Dictionaries with
    string keys are [gmap string _].  The rows of a table carry their index
    labels, and a boolean mask is read by label, as pandas aligns them. *)

From Stdlib Require Import ZArith Floats Ascii String List.
From stdpp Require Import base option list gmap strings.

Set Warnings "-inexact-float".
Set Default Proof Using "Type".

Local Open Scope string_scope.
Local Open Scope Z_scope.

(** ** Python values, exceptions and the builtins the program uses *)

Module Py.

(** The exceptions the modelled statements can raise. *)
Inductive exn : Type :=
| ValueError | TypeError | OverflowError | ZeroDivisionError | KeyError
| IndexingError.

(** The outcome of evaluating an expression or a block. *)
Inductive result (A : Type) : Type :=
| Ok (a : A)
| Raise (e : exn).
Arguments Ok {A} a.
Arguments Raise {A} e.

#[global] Instance result_ret : MRet result := @Ok.
#[global] Instance result_bind : MBind result := fun A B f m =>
  match m with Ok a => f a | Raise e => Raise e end.

(** [try: body  except: handler], where the block's effect is the value it
    leaves in the variables it assigns. *)
Definition try_except {A : Type} (body : result A) (handler : A) : A :=
  match body with Ok a => a | Raise _ => handler end.

(** The block returns a value that satisfies [P]. *)
Definition returns {A : Type} (o : result A) (P : A -> Prop) : Prop :=
  match o with Ok a => P a | Raise _ => False end.

Definition returned {A : Type} (o : result A) : bool :=
  match o with Ok _ => true | Raise _ => false end.

(** The scalar values a JSON-derived attribute dictionary holds. *)
Inductive pyval : Type :=
| PNone
| PBool (b : bool)
| PInt (n : Z)
| PFloat (x : float)
| PStr (s : string).

Definition is_None (v : pyval) : bool :=
  match v with PNone => true | _ => false end.

(** [bool(x)] for a float: every value but the two zeros is true (a NaN is
    true). *)
Definition float_truthy (x : float) : bool := negb (x =? 0)%float.

(** Truth value testing, as [if v:] and [a and b] perform it. *)
Definition truthy (v : pyval) : bool :=
  match v with
  | PNone => false
  | PBool b => b
  | PInt n => negb (n =? 0)
  | PFloat x => float_truthy x
  | PStr s => negb (String.eqb s "")
  end.

(** An optional float, as a Python value. *)
Definition of_option (o : option float) : pyval :=
  match o with Some x => PFloat x | None => PNone end.

(** [d.get(key, None)]: a missing key and a key bound to [None] read the
    same. *)
Definition dict_get (d : gmap string pyval) (key : string) : pyval :=
  default PNone (d !! key).

(** *** Conversions to float *)

(** The double nearest to an integer (ties to even); infinite when the
    integer is out of range. *)
Definition Z_to_float (n : Z) : float :=
  SF2Prim (binary_normalize prec emax n 0 false).

Definition is_finite (x : float) : bool :=
  negb (is_nan x) && negb (is_infinity x).

(** [float(n)] for an int: [OverflowError] when [n] is too large. *)
Definition float_of_int (n : Z) : result float :=
  let x := Z_to_float n in
  if is_finite x then Ok x else Raise OverflowError.

Definition float_of_bool (b : bool) : float := if b then 1%float else 0%float.

(** [float(s)] for a str of ASCII characters.  The argument is stripped of
    surrounding whitespace; it is then a sign followed by [inf],
    [infinity], [nan] (in any case) or by a decimal number
    [digits [. digits] [e [sign] digits]], where a group of digits may hold
    single underscores between digits.  The value is the nearest double. *)
Definition is_space (c : ascii) : bool :=
  let n := nat_of_ascii c in
  (Nat.eqb n 32 || (Nat.leb 9 n && Nat.leb n 13))%bool.

Fixpoint lstrip (s : list ascii) : list ascii :=
  match s with
  | c :: s' => if is_space c then lstrip s' else s
  | [] => []
  end.

Definition strip (s : list ascii) : list ascii :=
  rev (lstrip (rev (lstrip s))).

Definition digit_val (c : ascii) : option Z :=
  let n := nat_of_ascii c in
  if (Nat.leb 48 n && Nat.leb n 57)%bool then Some (Z.of_nat n - 48) else None.

Definition lower (c : ascii) : ascii :=
  let n := nat_of_ascii c in
  if (Nat.leb 65 n && Nat.leb n 90)%bool then ascii_of_nat (n + 32) else c.

(** Reads the rest of a group of digits: [acc] is the number read so far and
    [k] the count of its digits.  An underscore is consumed only when a
    digit follows it. *)
Fixpoint digits_tail (acc : Z) (k : nat) (s : list ascii) : Z * nat * list ascii :=
  match s with
  | c :: s' =>
      match digit_val c with
      | Some d => digits_tail (10 * acc + d) (S k) s'
      | None =>
          if Ascii.eqb c "_" then
            match s' with
            | c' :: s'' =>
                match digit_val c' with
                | Some d => digits_tail (10 * acc + d) (S k) s''
                | None => (acc, k, s)
                end
            | [] => (acc, k, s)
            end
          else (acc, k, s)
      end
  | [] => (acc, k, s)
  end.

(** A group of digits appended to [acc]; it starts with a digit or is
    empty. *)
Definition digits (acc : Z) (s : list ascii) : Z * nat * list ascii :=
  match s with
  | c :: s' =>
      match digit_val c with
      | Some d => digits_tail (10 * acc + d) 1 s'
      | None => (acc, O, s)
      end
  | [] => (acc, O, s)
  end.

(** An optional sign: [true] for a minus. *)
Definition sign (s : list ascii) : bool * list ascii :=
  match s with
  | c :: s' =>
      if Ascii.eqb c "-" then (true, s')
      else if Ascii.eqb c "+" then (false, s')
      else (false, s)
  | [] => (false, s)
  end.

(** A decimal number as [(m, e)], standing for [m * 10 ^ e]. *)
Definition decimal (s : list ascii) : option (Z * Z) :=
  let '(ip, ni, s1) := digits 0 s in
  let '(m, nf, s2) :=
    match s1 with
    | c :: t => if Ascii.eqb c "." then digits ip t else (ip, O, s1)
    | [] => (ip, O, s1)
    end in
  if Nat.eqb (ni + nf) 0 then None
  else
    match s2 with
    | [] => Some (m, - Z.of_nat nf)
    | c :: t =>
        if Ascii.eqb (lower c) "e" then
          let '(neg, t') := sign t in
          match digits 0 t' with
          | (_, O, _) => None
          | (x, _, []) => Some (m, (if neg then - x else x) - Z.of_nat nf)
          | (_, _, _ :: _) => None
          end
        else None
    end.

(** The double nearest to [m * 10 ^ e], for [0 <= m]. *)
Definition round_decimal (m e : Z) : spec_float :=
  match m with
  | Zpos p =>
      if 0 <=? e then binary_normalize prec emax (m * 10 ^ e) 0 false
      else SFdiv prec emax (S754_finite false p 0)
                 (S754_finite false (Z.to_pos (10 ^ (- e))) 0)
  | _ => S754_zero false
  end.

Definition float_of_string (s : string) : result float :=
  let '(neg, body) := sign (strip (list_ascii_of_string s)) in
  let word := string_of_list_ascii (map lower body) in
  let signed (x : spec_float) := SF2Prim (if neg then SFopp x else x) in
  if (String.eqb word "inf" || String.eqb word "infinity")%bool
  then Ok (signed (S754_infinity false))
  else if String.eqb word "nan" then Ok nan
  else
    match decimal body with
    | Some (m, e) => Ok (signed (round_decimal m e))
    | None => Raise ValueError
    end.

(** [float(v)]. *)
Definition py_float (v : pyval) : result float :=
  match v with
  | PNone => Raise TypeError
  | PBool b => Ok (float_of_bool b)
  | PInt n => float_of_int n
  | PFloat x => Ok x
  | PStr s => float_of_string s
  end.

(** *** Arithmetic *)

(** [v * x] for a float [x]: a number is converted to float first, and a
    str cannot be multiplied by a float. *)
Definition mul_float (v : pyval) (x : float) : result float :=
  match v with
  | PNone => Raise TypeError
  | PBool b => Ok (float_of_bool b * x)%float
  | PInt n => a ← float_of_int n; Ok (a * x)%float
  | PFloat a => Ok (a * x)%float
  | PStr _ => Raise TypeError
  end.

(** [a / b] on floats: a zero divisor (of either sign) raises. *)
Definition float_div (a b : float) : result float :=
  if (b =? 0)%float then Raise ZeroDivisionError else Ok (a / b)%float.

(** *** Comparing an int with a float *)

(** [n <= x] and [x <= n] for an int and a float, as Python compares them:
    by their exact values, the int is not rounded.  A finite float is
    [m * 2 ^ e] for an integer mantissa. *)
Definition int_le_float (n : Z) (x : float) : bool :=
  match Prim2SF x with
  | S754_nan => false
  | S754_infinity s => negb s
  | S754_zero _ => n <=? 0
  | S754_finite s m e =>
      let v := if s then Z.neg m else Z.pos m in
      if 0 <=? e then n <=? v * 2 ^ e else n * 2 ^ (- e) <=? v
  end.

Definition float_le_int (x : float) (n : Z) : bool :=
  match Prim2SF x with
  | S754_nan => false
  | S754_infinity s => s
  | S754_zero _ => 0 <=? n
  | S754_finite s m e =>
      let v := if s then Z.neg m else Z.pos m in
      if 0 <=? e then v * 2 ^ e <=? n else v <=? n * 2 ^ (- e)
  end.


(** The value of a finite float in units of [2 ^ -1074], the spacing of the
    smallest doubles: an integer. *)
Definition float_units (x : spec_float) : Z :=
  match x with
  | S754_finite s m e => (if s then Z.neg m else Z.pos m) * 2 ^ (e + 1074)
  | _ => 0
  end.

End Py.
Import Py.

(** ** The metric engine: [compute_metrics] *)

(** A result row [r]: a dictionary from column names to cells. *)
Abbreviation row := (gmap string pyval).

(** The dictionary [fetch_yf_info] returns: [{'raw': ..., 'price': ...}].  An
    entry is [None] when its key is missing, which [.get] turns into its
    default. *)
Record yf_info : Type := {
  get_raw : option (gmap string pyval);
  get_price : option float
}.

(** Lines 68-69: [dy = ri.get('dividendYield', None)] and
    [None if dy is None else float(dy) * 100].  The conversion is not inside
    a [try]. *)
Definition dividend_yield_pct (ri : gmap string pyval) : result pyval :=
  let dy := dict_get ri "dividendYield" in
  if is_None dy then Ok PNone
  else x ← py_float dy; Ok (PFloat (x * 100)%float).

(** Lines 61-66: the debt-to-equity conversion, inside its [try]. *)
Definition debt_to_equity (ri : gmap string pyval) : pyval :=
  try_except
    (let dte := dict_get ri "debtToEquity" in
     if negb (is_None dte) then x ← py_float dte; Ok (PFloat x)
     else Ok dte)
    PNone.

(** Lines 74-80: the free-cash-flow yield, inside its [try]. *)
Definition fcf_yield (fcf mcap : pyval) : pyval :=
  try_except
    (if negb (is_None fcf) && truthy mcap then
       a ← py_float fcf;
       b ← py_float mcap;
       q ← float_div a b;
       Ok (PFloat (q * 100)%float)
     else Ok PNone)
    PNone.

(** Lines 82-96: the Graham value and the margin of safety, as the pair of
    cells the block leaves in [r]. *)
Definition graham_block (eps : pyval) (price : option float)
    (est_growth aaa_rate : float) : pyval * pyval :=
  try_except
    (if negb (is_None eps) && float_truthy aaa_rate && (0 <? aaa_rate)%float then
       a ← mul_float eps (8.5 + 2 * (est_growth / 100.0))%float;
       graham ← float_div (a * 4.4)%float (aaa_rate / 100.0)%float;
       match price with
       | Some p =>
           if float_truthy p && float_truthy graham then
             d ← float_div (graham - p)%float graham;
             Ok (PFloat graham, PFloat (d * 100)%float)
           else Ok (PFloat graham, PNone)
       | None => Ok (PFloat graham, PNone)
       end
     else Ok (PNone, PNone))
    (PNone, PNone).

Definition compute_metrics (ticker : string) (info_raw : yf_info)
    (price : option float) (est_growth aaa_rate : float) : result row :=
  let r : row := ∅ in
  let ri := default ∅ (get_raw info_raw) in
  let r := <["Ticker" := PStr ticker]> r in
  let r := <["Price (USD)" := of_option price]> r in
  let r := <["P/E" := dict_get ri "trailingPE"]> r in
  let r := <["P/B" := dict_get ri "priceToBook"]> r in
  let r := <["Debt/Equity" := debt_to_equity ri]> r in
  dy_pct ← dividend_yield_pct ri;
  let r := <["Dividend Yield (%)" := dy_pct]> r in
  let fcf := dict_get ri "freeCashflow" in
  let r := <["FreeCashflow (USD)" := fcf]> r in
  let mcap := dict_get ri "marketCap" in
  let r := <["MarketCap (USD)" := mcap]> r in
  let r := <["FCF Yield (%)" := fcf_yield fcf mcap]> r in
  let eps := dict_get ri "trailingEps" in
  let '(graham, mos) := graham_block eps price est_growth aaa_rate in
  let r := <["Graham Value (est. USD)" := graham]> r in
  let r := <["Margin of Safety (%)" := mos]> r in
  let r := <["Sector" := dict_get ri "sector"]> r in
  let r := <["Industry" := dict_get ri "industry"]> r in
  Ok r.

(** A numeric attribute that equals zero ([0], [0.0], [-0.0], [False]). *)
Definition is_zero_number (v : pyval) : bool :=
  match v with
  | PBool b => negb b
  | PInt n => n =? 0
  | PFloat x => (x =? 0)%float
  | PNone | PStr _ => false
  end.

(** ** The result table and the filter mask block *)

(** A row label of a table. *)
Abbreviation label := nat.

(** A [pandas.DataFrame] built from row dictionaries: its columns are the
    keys that occur in some row, and every row carries its label in the
    table's index.  A cell whose key is missing from its row is NaN.

    pandas holds a column either as an array of doubles or 64-bit integers,
    or as an array of Python objects; [df_object] says which.  This matters
    to the mask block for one kind of cell only: an int is compared with a
    float exactly when its column holds Python objects, and as the double
    nearest to it otherwise.  The order of the columns is not modelled. *)
Record DataFrame : Type := {
  df_columns : gset string;
  df_object : string -> bool;
  df_items : list (label * row)
}.

Definition df_index (df : DataFrame) : list label := (df_items df).*1.

Definition df_rows (df : DataFrame) : list row := (df_items df).*2.

Definition cell (column : string) (r : row) : pyval :=
  default (PFloat nan) (r !! column).

(** [pd.DataFrame(rows)]: the rows are labelled [0 .. n-1].  Which columns
    pandas holds as Python objects is decided inside its constructor, from
    the cells of the column in row order; that decision is
    [infer_objects], and nothing is assumed about it. *)
Definition pd_DataFrame (infer_objects : list pyval -> bool)
    (rows : list row) : DataFrame :=
  {| df_columns := ⋃ (dom <$> rows);
     df_object := fun column => infer_objects (cell column <$> rows);
     df_items := zip (seq 0 (length rows)) rows |}.

(** [df[column]], the cells of a column with their labels: [KeyError] when
    the table has no such column. *)
Definition df_col (df : DataFrame) (column : string)
    : result (list (label * pyval)) :=
  if decide (column ∈ df_columns df)
  then Ok (prod_map id (cell column) <$> df_items df)
  else Raise KeyError.

(** A missing cell is [None] or NaN. *)
Definition isna (v : pyval) : bool :=
  match v with
  | PNone => true
  | PFloat x => is_nan x
  | _ => false
  end.

(** [series.fillna(value)], one cell at a time. *)
Definition fill (value : float) (v : pyval) : pyval :=
  if isna v then PFloat value else v.

Definition fillna (value : float) (s : list (label * pyval))
    : list (label * pyval) :=
  prod_map id (fill value) <$> s.

(** [v <= x] and [v >= x] for a cell and a float bound, in a column that
    holds Python objects ([object]) or numbers.  A str cannot be compared
    with a float. *)
Definition cell_le (object : bool) (v : pyval) (x : float) : result bool :=
  match v with
  | PNone => Raise TypeError
  | PBool b => Ok (float_of_bool b <=? x)%float
  | PInt n => Ok (if object then int_le_float n x else (Z_to_float n <=? x)%float)
  | PFloat y => Ok (y <=? x)%float
  | PStr _ => Raise TypeError
  end.

Definition cell_ge (object : bool) (v : pyval) (x : float) : result bool :=
  match v with
  | PNone => Raise TypeError
  | PBool b => Ok (x <=? float_of_bool b)%float
  | PInt n => Ok (if object then float_le_int x n else (x <=? Z_to_float n)%float)
  | PFloat y => Ok (x <=? y)%float
  | PStr _ => Raise TypeError
  end.

(** A boolean Series is read by label only (by [&] and by [df[mask]]): it is
    the finite map from its labels to its values. *)
Abbreviation mask_series := (gmap label bool).

(** [series <= x] and [series >= x], element by element in row order; the
    result keeps the labels of the series. *)
Definition series_le (object : bool) (s : list (label * pyval)) (x : float)
    : result mask_series :=
  c ← mapM (fun p => b ← cell_le object p.2 x; Ok (p.1, b)) s;
  Ok (list_to_map c).

Definition series_ge (object : bool) (s : list (label * pyval)) (x : float)
    : result mask_series :=
  c ← mapM (fun p => b ← cell_ge object p.2 x; Ok (p.1, b)) s;
  Ok (list_to_map c).

(** [pd.Series(values)]: the values are labelled [0 .. n-1]. *)
Definition pd_Series (values : list bool) : mask_series := map_seq 0 values.

(** [a & b] aligns the two Series on their labels: the result has the labels
    of either, and is [False] at a label that one of them lacks. *)
Definition and_aligned (x y : option bool) : option bool :=
  match x, y with
  | Some p, Some q => Some (p && q)
  | None, None => None
  | _, _ => Some false
  end.

Definition series_and (a b : mask_series) : mask_series :=
  merge and_aligned a b.

(** [df[mask]] for a boolean Series: the mask is looked up at the label of
    each row, and the rows kept keep their labels.  A row whose label the
    mask lacks makes the indexing fail. *)
Definition df_getitem (df : DataFrame) (mask : mask_series)
    : result DataFrame :=
  if decide (Forall (fun l => is_Some (mask !! l)) (df_index df))
  then Ok {| df_columns := df_columns df;
             df_object := df_object df;
             df_items :=
               List.filter (fun p => default false (mask !! p.1)) (df_items df) |}
  else Raise IndexingError.

(** The values of the sidebar's number inputs; each is a float, never
    [None]. *)
Record settings : Type := {
  pe_max : float;
  pb_max : float;
  de_max : float;
  div_yield_min : float;
  fcf_yield_min : float;
  est_growth : float;
  aaa_rate : float;
  min_mos : float
}.

(** One step of the mask block:
    [if bound is not None: mask = mask & (df[column].fillna(np.inf) <= bound)]. *)
Definition mask_le (df : DataFrame) (column : string) (bound : option float)
    (mask : mask_series) : result mask_series :=
  match bound with
  | Some x =>
      s ← df_col df column;
      c ← series_le (df_object df column) (fillna infinity s) x;
      Ok (series_and mask c)
  | None => Ok mask
  end.

(** [if bound is not None: mask = mask & (df[column].fillna(-np.inf) >= bound)]. *)
Definition mask_ge (df : DataFrame) (column : string) (bound : option float)
    (mask : mask_series) : result mask_series :=
  match bound with
  | Some x =>
      s ← df_col df column;
      c ← series_ge (df_object df column) (fillna neg_infinity s) x;
      Ok (series_and mask c)
  | None => Ok mask
  end.

(** Lines 121-135: the mask over the six thresholds and [df[mask].copy()].
    The mask starts as [pd.Series([True] * len(df))], labelled [0 .. n-1]
    whatever the labels of [df] are. *)
Definition apply_filters (cfg : settings) (df : DataFrame) : result DataFrame :=
  let mask := pd_Series (replicate (length (df_items df)) true) in
  mask ← mask_le df "P/E" (Some (pe_max cfg)) mask;
  mask ← mask_le df "P/B" (Some (pb_max cfg)) mask;
  mask ← mask_le df "Debt/Equity" (Some (de_max cfg)) mask;
  mask ← mask_ge df "Dividend Yield (%)" (Some (div_yield_min cfg)) mask;
  mask ← mask_ge df "FCF Yield (%)" (Some (fcf_yield_min cfg)) mask;
  mask ← mask_ge df "Margin of Safety (%)" (Some (min_mos cfg)) mask;
  df_getitem df mask.


(** ** The "Run Screener" handler *)

(** What the handler shows on the page, in order: [st_progress k n] is the
    progress bar at [k / n], [st_subheader_matching k n] the heading
    "Filtered Results (matching k / n)". *)
Inductive ui_event : Type :=
| st_error (msg : string)
| st_progress (done total : nat)
| st_subheader (text : string)
| st_subheader_matching (matching total : nat)
| st_dataframe (df : DataFrame)
| st_download_button (label data file_name mime : string).

(** The row the handler appends when fetching or computing raised. *)
Definition fallback_row (tk : string) : row :=
  <["Price (USD)" := PNone]> (<["Ticker" := PStr tk]> ∅).

Section Handler.

(** The market-data provider, the table constructor's choice of how it holds
    a column and the export encoders are outside the program: fetching reads
    and changes a state [world] (the network, the one-hour cache) and may
    raise; the encoders turn a table into bytes. *)
Context {world : Type}.
Variable infer_objects : list pyval -> bool.
Variable fetch_yf_info : string -> world -> result yf_info * world.
Variable to_csv : DataFrame -> string.
Variable to_excel_bytes : DataFrame -> string.

(** Lines 108-115: the loop over [enumerate(tickers)], from index [i]. *)
Fixpoint fetch_rows (cfg : settings) (total i : nat) (tickers : list string)
    (w : world) : list row * list ui_event * world :=
  match tickers with
  | [] => ([], [], w)
  | tk :: rest =>
      let '(fetched, w1) := fetch_yf_info tk w in
      let r :=
        try_except
          (info ← fetched;
           compute_metrics tk info (get_price info) (est_growth cfg) (aaa_rate cfg))
          (fallback_row tk) in
      let '(rows, shown, w2) := fetch_rows cfg total (S i) rest w1 in
      (r :: rows, st_progress (S i) total :: shown, w2)
  end.

(** Lines 102-151: the body of [if run_button:].  The outcome is the events
    shown, the exception that ended the run if one did, and the state. *)
Definition on_run (cfg : settings) (tickers : list string) (w : world)
    : list ui_event * option exn * world :=
  match tickers with
  | [] => ([st_error "Please enter at least one ticker on the left."], None, w)
  | _ :: _ =>
      let total := length tickers in
      let '(rows, shown, w') := fetch_rows cfg total 0 tickers w in
      let df := pd_DataFrame infer_objects rows in
      let raw := (st_progress 0 total :: shown
                  ++ [st_subheader "Raw Results"; st_dataframe df])%list in
      match apply_filters cfg df with
      | Raise e => (raw, Some e, w')
      | Ok df_filtered =>
          ((raw ++ [st_subheader_matching (length (df_rows df_filtered))
                     (length (df_rows df));
                   st_dataframe df_filtered;
                   st_download_button "Download CSV" (to_csv df_filtered)
                     "screener.csv" "text/csv";
                   st_download_button "Download Excel"
                     (to_excel_bytes df_filtered) "screener.xlsx"
                     "application/vnd.openxmlformats-officedocument.spreadsheetml.sheet"])%list,
           None, w')
      end
  end.

Definition screener (run_button : bool) (cfg : settings)
    (tickers : list string) (w : world) : list ui_event * option exn * world :=
  if run_button then on_run cfg tickers w else ([], None, w).

End Handler.


(** ** The filter as the specification words it *)

(** The six columns the thresholds read. *)
Definition filter_columns : list string :=
  ["P/E"; "P/B"; "Debt/Equity";
   "Dividend Yield (%)"; "FCF Yield (%)"; "Margin of Safety (%)"].

(** A numeric field of a metric row is a number or unknown; it is never
    text. *)
Definition numeric_or_unknown (v : pyval) : bool :=
  match v with PStr _ => false | _ => true end.

Definition metric_row (r : row) : Prop :=
  Forall (fun c => numeric_or_unknown (cell c r) = true) filter_columns.

(** Each of the six columns is a key of some row: only then does the table
    built from the rows have the column. *)
Definition has_filter_columns (rows : list row) : Prop :=
  Forall (fun c => Exists (fun r => is_Some (r !! c)) rows) filter_columns.

(** A table of metric rows: it has the six columns, and their cells are
    numbers or unknown. *)
Definition metric_table (df : DataFrame) : Prop :=
  Forall (fun c => c ∈ df_columns df) filter_columns
  /\ Forall metric_row (df_rows df).

(** The table has the default index [0 .. n-1], as [pd.DataFrame(rows)]
    gives it. *)
Definition default_index (df : DataFrame) : Prop :=
  df_index df = seq 0 (length (df_items df)).

(** [df.reset_index(drop=True)]: the same table, its rows labelled
    [0 .. n-1] again. *)
Definition reset_index (df : DataFrame) : DataFrame :=
  {| df_columns := df_columns df;
     df_object := df_object df;
     df_items := zip (seq 0 (length (df_items df))) (df_rows df) |}.

(** [field <= bound] and [field >= bound] for a field that holds a number,
    in a column that holds Python objects ([object]) or numbers. *)
Definition number_le (object : bool) (v : pyval) (bound : float) : bool :=
  match v with
  | PBool b => (float_of_bool b <=? bound)%float
  | PInt n => if object then int_le_float n bound else (Z_to_float n <=? bound)%float
  | PFloat x => (x <=? bound)%float
  | PNone | PStr _ => false
  end.

Definition number_ge (object : bool) (v : pyval) (bound : float) : bool :=
  match v with
  | PBool b => (bound <=? float_of_bool b)%float
  | PInt n => if object then float_le_int bound n else (bound <=? Z_to_float n)%float
  | PFloat x => (bound <=? x)%float
  | PNone | PStr _ => false
  end.

(** [field <= bound], unknown as [+inf]; [field >= bound], unknown as
    [-inf]. *)
Definition clause_le (object : bool) (v : pyval) (bound : float) : bool :=
  if isna v then (infinity <=? bound)%float else number_le object v bound.

Definition clause_ge (object : bool) (v : pyval) (bound : float) : bool :=
  if isna v then (bound <=? neg_infinity)%float else number_ge object v bound.

(** The conjunction of the six threshold clauses on one row; [object] says
    which columns hold Python objects. *)
Definition passes (object : string -> bool) (cfg : settings) (r : row) : bool :=
  clause_le (object "P/E") (cell "P/E" r) (pe_max cfg)
  && clause_le (object "P/B") (cell "P/B" r) (pb_max cfg)
  && clause_le (object "Debt/Equity") (cell "Debt/Equity" r) (de_max cfg)
  && clause_ge (object "Dividend Yield (%)") (cell "Dividend Yield (%)" r)
       (div_yield_min cfg)
  && clause_ge (object "FCF Yield (%)") (cell "FCF Yield (%)" r)
       (fcf_yield_min cfg)
  && clause_ge (object "Margin of Safety (%)") (cell "Margin of Safety (%)" r)
       (min_mos cfg).

(** The boolean Series of a predicate on the rows of a table. *)
Definition series_of (f : row -> bool) (items : list (label * row))
    : mask_series :=
  list_to_map ((fun p => (p.1, f p.2)) <$> items).


(** ** The ticker list and the fetcher *)

(** Line 33 reads the tickers off the text area:
    [[t.strip().upper() for t in tickers_input.split(",") if t.strip()]].
    The string methods are modelled for ASCII text. *)

(** [c.isspace()]: tab to carriage return, the four separators and the
    space. *)
Definition str_is_space (c : ascii) : bool :=
  let n := nat_of_ascii c in
  ((Nat.leb 9 n && Nat.leb n 13) || (Nat.leb 28 n && Nat.leb n 32))%bool.

Fixpoint str_lstrip (s : list ascii) : list ascii :=
  match s with
  | c :: s' => if str_is_space c then str_lstrip s' else s
  | [] => []
  end.

(** [s.strip()]. *)
Definition str_strip (s : list ascii) : list ascii :=
  rev (str_lstrip (rev (str_lstrip s))).

Definition upper_char (c : ascii) : ascii :=
  let n := nat_of_ascii c in
  if (Nat.leb 97 n && Nat.leb n 122)%bool then ascii_of_nat (n - 32) else c.

(** [s.upper()]. *)
Definition str_upper (s : list ascii) : list ascii := map upper_char s.

(** [s.split(sep)] for a one-character separator: the empty string splits
    into one empty piece. *)
Fixpoint str_split (sep : ascii) (s : list ascii) : list (list ascii) :=
  match s with
  | [] => [[]]
  | c :: s' =>
      if Ascii.eqb c sep then [] :: str_split sep s'
      else
        match str_split sep s' with
        | piece :: pieces => (c :: piece) :: pieces
        | [] => [[c]]
        end
  end.

(** [sep.join(pieces)]. *)
Fixpoint str_join (sep : ascii) (pieces : list (list ascii)) : list ascii :=
  match pieces with
  | [] => []
  | [piece] => piece
  | piece :: rest => (piece ++ sep :: str_join sep rest)%list
  end.

Definition tickers_of (pieces : list (list ascii)) : list (list ascii) :=
  (fun t => str_upper (str_strip t))
    <$> List.filter (fun t => negb (Nat.eqb (length (str_strip t)) 0)) pieces.

Definition parse_tickers (tickers_input : string) : list string :=
  string_of_list_ascii
    <$> tickers_of (str_split "," (list_ascii_of_string tickers_input)).

(** The text is ASCII. *)
Definition is_ascii (s : list ascii) : bool :=
  forallb (fun c => Nat.ltb (nat_of_ascii c) 128) s.

(** A ticker as the parser leaves it: not empty, no whitespace at either end,
    no lower-case letter, no comma. *)
Definition clean_ticker (t : list ascii) : Prop :=
  t <> [] /\ str_strip t = t /\ str_upper t = t /\ ~ In ","%char t.

(** Lines 36-52, the body of [fetch_yf_info] once [yf.Ticker(ticker)] is
    built: [tk_info] is what reading [tk.info] gives and [closes] what
    [tk.history(period="1d")] gives, as the values of its "Close" column.
    Either may raise.  The one-hour cache around the body belongs to the
    state of the handler's fetcher. *)
Definition fetch_yf_info_body (tk_info : result (gmap string pyval))
    (closes : result (list float)) : yf_info :=
  let raw := try_except tk_info ∅ in
  let price := try_except (hist ← closes; Ok (last hist)) None in
  {| get_raw := Some raw; get_price := price |}.

(** The thirteen columns of a computed row. *)
Definition row_columns : gset string :=
  list_to_set
    ["Ticker"; "Price (USD)"; "P/E"; "P/B"; "Debt/Equity";
     "Dividend Yield (%)"; "FreeCashflow (USD)"; "MarketCap (USD)";
     "FCF Yield (%)"; "Graham Value (est. USD)"; "Margin of Safety (%)";
     "Sector"; "Industry"].

(** A cell that is [None] or a float. *)
Definition none_or_float (v : pyval) : bool :=
  match v with PNone | PFloat _ => true | _ => false end.

(** [cfg'] is at least as permissive as [cfg]: no maximum is lower and no
    minimum is higher. *)
Definition loosened (cfg cfg' : settings) : Prop :=
  (pe_max cfg <=? pe_max cfg')%float = true
  /\ (pb_max cfg <=? pb_max cfg')%float = true
  /\ (de_max cfg <=? de_max cfg')%float = true
  /\ (div_yield_min cfg' <=? div_yield_min cfg)%float = true
  /\ (fcf_yield_min cfg' <=? fcf_yield_min cfg)%float = true
  /\ (min_mos cfg' <=? min_mos cfg)%float = true.

(** ** Sample inputs *)

(** The sidebar's default values. *)
Definition default_settings : settings :=
  {| pe_max := 15; pb_max := 3; de_max := 100;
     div_yield_min := 0; fcf_yield_min := 0;
     est_growth := 5; aaa_rate := 4; min_mos := 20 |}.

(** What [fetch_yf_info] returns for the attributes [attrs] and a price. *)
Definition info_of (attrs : list (string * pyval)) (price : option float)
    : yf_info :=
  {| get_raw := Some (list_to_map attrs); get_price := price |}.

(** A row of the result table with the given cells in the six filter columns. *)
Definition table_row (ticker : string) (pe pb de dy fcfy mos : pyval) : row :=
  list_to_map
    [("Ticker", PStr ticker); ("P/E", pe); ("P/B", pb); ("Debt/Equity", de);
     ("Dividend Yield (%)", dy); ("FCF Yield (%)", fcfy);
     ("Margin of Safety (%)", mos)].

(** A row that meets the default thresholds but for its dividend yield, which
    is unknown. *)
Definition row_no_dividend : row :=
  table_row "NODIV" (PFloat 10) (PFloat 1) (PFloat 50) PNone (PFloat 3)
    (PFloat 30).

(** A row that meets every default threshold. *)
Definition row_good : row :=
  table_row "GOOD" (PFloat 10) (PFloat 1) (PFloat 50) (PFloat 2) (PFloat 3)
    (PFloat 30).

(** A row whose P/E is unknown. *)
Definition row_no_pe : row :=
  table_row "NOPE" PNone (PFloat 1) (PFloat 50) (PFloat 2) (PFloat 3)
    (PFloat 30).

(** The table of four such rows, however its columns are held. *)
Definition sample_table (infer_objects : list pyval -> bool) : DataFrame :=
  pd_DataFrame infer_objects [row_no_dividend; row_good; row_no_pe; row_good].

(** Attributes with a text dividend yield (and a text debt-to-equity). *)
Definition info_text_dividend : yf_info :=
  info_of [("trailingPE", PFloat 12.5); ("debtToEquity", PStr "N/A");
           ("dividendYield", PStr "N/A")] (Some 100%float).

(** The scenario "AAA": earnings per share 5, as an int and as a float. *)
Definition info_aaa_int : yf_info :=
  info_of [("trailingEps", PInt 5)] (Some 100%float).

Definition info_aaa_float : yf_info :=
  info_of [("trailingEps", PFloat 5)] (Some 100%float).

(** The same earnings, with a price of zero. *)
Definition info_aaa_zero_price : yf_info :=
  info_of [("trailingEps", PInt 5)] (Some 0%float).

(** The scenario "BBB": free cash flow 1,000,000 and market cap 0. *)
Definition info_bbb : yf_info :=
  info_of [("freeCashflow", PInt 1000000); ("marketCap", PInt 0)] None.

(** A free cash flow whose quotient by the market cap overflows. *)
Definition info_fcf_overflow : yf_info :=
  info_of [("freeCashflow", PFloat 1e308); ("marketCap", PFloat 0.001)] None.

(** A free cash flow that is text. *)
Definition info_fcf_text : yf_info :=
  info_of [("freeCashflow", PStr "N/A"); ("marketCap", PInt 5)] None.

(** A plain pair of free cash flow and market cap. *)
Definition info_fcf_plain : yf_info :=
  info_of [("freeCashflow", PInt 50); ("marketCap", PInt 1000)] None.

(** No earnings per share, and a text dividend yield. *)
Definition info_no_eps_text_dividend : yf_info :=
  info_of [("dividendYield", PStr "N/A")] (Some 100%float).

(** Earnings per share 5, and a text dividend yield. *)
Definition info_eps_text_dividend : yf_info :=
  info_of [("trailingEps", PInt 5); ("dividendYield", PStr "N/A")]
    (Some 0%float).

(** No earnings per share. *)
Definition info_no_eps : yf_info :=
  info_of [("trailingPE", PFloat 12.5)] (Some 100%float).

(** Earnings per share 0. *)
Definition info_zero_eps : yf_info :=
  info_of [("trailingEps", PInt 0)] (Some 100%float).

(** The row an outcome holds, for naming the rows of the scenarios. *)
Definition row_of (o : result row) : row := try_except o ∅.

Definition row_ccc : row :=
  row_of (compute_metrics "CCC" info_fcf_plain None 5 4).

Definition row_bbb : row :=
  row_of (compute_metrics "BBB" info_bbb None 5 4).

Definition row_zzz : row :=
  row_of (compute_metrics "ZZZ" info_zero_eps (Some 100%float) 5 4).

(** The rows of two more scenarios. *)
Definition row_aaa : row :=
  row_of (compute_metrics "AAA" info_aaa_float (Some 100%float) 5 4).

Definition row_fcf_text : row :=
  row_of (compute_metrics "BBB" info_fcf_text None 5 4).

(** The default thresholds, but for a maximum P/B that is NaN. *)
Definition nan_pb_settings : settings :=
  {| pe_max := 15; pb_max := nan; de_max := 100;
     div_yield_min := 0; fcf_yield_min := 0;
     est_growth := 5; aaa_rate := 4; min_mos := 20 |}.

(** The default thresholds, but for a minimum dividend yield of [-inf]. *)
Definition any_dividend_settings : settings :=
  {| pe_max := 15; pb_max := 3; de_max := 100;
     div_yield_min := neg_infinity; fcf_yield_min := 0;
     est_growth := 5; aaa_rate := 4; min_mos := 20 |}.

(** The text area's default content. *)
Definition default_tickers_input : string :=
  "AAPL,MSFT,INTC,IBM,CSCO,ORCL,TXN,AVGO,QCOM,MU".




(** The smallest positive double, [2^-1074]. *)
Definition tiny : float := 5e-324%float.

(** ** Facts about outcomes *)

Section Outcomes.

Lemma returns_ex {A : Type} (o : result A) (P : A -> Prop) :
  returns o P -> exists a, o = Ok a /\ P a.
Proof. destruct o as [a | e]; [ | done]. intros H. by exists a. Qed.

Lemma returned_row_of (o : result row) :
  returned o = true -> o = Ok (row_of o).
Proof. by destruct o. Qed.

End Outcomes.

(** Settles what a concrete call returns by evaluating it. *)
Ltac evaluate := apply returns_ex; vm_compute; repeat split.

(** Names the row a concrete call returns. *)
Ltac returned_row := apply returned_row_of; vm_compute; reflexivity.

(** ** Facts about floats *)

Section FloatFacts.

Lemma Prim2SF_neg_infinity : Prim2SF neg_infinity = S754_infinity true.
Proof. reflexivity. Qed.

Lemma Prim2SF_zero : Prim2SF 0%float = S754_zero false.
Proof. reflexivity. Qed.

(** Only [-inf] is at most [-inf]. *)
Lemma leb_neg_infinity (x : float) :
  (x <=? neg_infinity)%float = true <-> x = neg_infinity.
Proof.
  rewrite leb_spec, Prim2SF_neg_infinity. split.
  - intros H. apply Prim2SF_inj. rewrite Prim2SF_neg_infinity.
    destruct (Prim2SF x) as [[]|[]| |[] m e]; simpl in H;
      try discriminate; reflexivity.
  - intros ->. reflexivity.
Qed.

Lemma eqb_zero_Prim2SF (x : float) :
  (x =? 0)%float = true <-> exists s, Prim2SF x = S754_zero s.
Proof.
  rewrite FloatAxioms.eqb_spec, Prim2SF_zero.
  destruct (Prim2SF x) as [s|[]| |[] m e]; cbn; split;
    try discriminate; try (intros [? ?]; discriminate); eauto.
Qed.

Lemma is_finite_Prim2SF (x : float) :
  is_finite x = true ->
  (exists s, Prim2SF x = S754_zero s)
  \/ (exists s m e, Prim2SF x = S754_finite s m e).
Proof.
  unfold is_finite, is_nan, is_infinity.
  rewrite !FloatAxioms.eqb_spec, abs_spec.
  change (Prim2SF infinity) with (S754_infinity false).
  destruct (Prim2SF x) as [s|s| |s m e]; cbn; try discriminate; eauto.
  destruct s; discriminate.
Qed.

Lemma mul_zero_finite (x f : float) :
  (x =? 0)%float = true -> is_finite f = true -> (x * f =? 0)%float = true.
Proof.
  rewrite !eqb_zero_Prim2SF. intros [s Hx] Hf. rewrite mul_spec, Hx.
  destruct (is_finite_Prim2SF f Hf) as [[s' ->] | (s' & m & e & ->)];
    cbn; eauto.
Qed.

Lemma ltb_zero_Prim2SF (d : float) :
  (0 <? d)%float = true ->
  Prim2SF d = S754_infinity false \/ exists m e, Prim2SF d = S754_finite false m e.
Proof.
  rewrite FloatAxioms.ltb_spec, Prim2SF_zero.
  destruct (Prim2SF d) as [s|[]| |[] m e]; cbn; try discriminate; eauto.
Qed.

Lemma pos_not_zero (d : float) :
  (0 <? d)%float = true -> (d =? 0)%float = false.
Proof.
  intros H. rewrite FloatAxioms.eqb_spec, Prim2SF_zero.
  destruct (ltb_zero_Prim2SF d H) as [-> | (m & e & ->)]; reflexivity.
Qed.

Lemma div_zero_pos (z d : float) :
  (z =? 0)%float = true -> (0 <? d)%float = true -> (z / d =? 0)%float = true.
Proof.
  rewrite !eqb_zero_Prim2SF. intros [s Hz] Hd. rewrite div_spec, Hz.
  destruct (ltb_zero_Prim2SF d Hd) as [-> | (m & e & ->)]; cbn; eauto.
Qed.

End FloatFacts.

(** ** The order of the floats *)

Section FloatOrder.

Lemma Prim2SF_infinity : Prim2SF infinity = S754_infinity false.
Proof. reflexivity. Qed.

(** Only [+inf] is at least [+inf]. *)
Lemma leb_infinity (x : float) :
  (infinity <=? x)%float = true <-> x = infinity.
Proof.
  rewrite leb_spec, Prim2SF_infinity. split.
  - intros H. apply Prim2SF_inj. rewrite Prim2SF_infinity.
    destruct (Prim2SF x) as [[]|[]| |[] m e]; simpl in H;
      try discriminate; reflexivity.
  - intros ->. reflexivity.
Qed.

Lemma Prim2SF_nan (x : float) : is_nan x = true -> Prim2SF x = S754_nan.
Proof. intros H. unfold Prim2SF. by rewrite H. Qed.

(** A NaN is neither below nor above anything. *)
Lemma leb_nan_r (x y : float) : is_nan y = true -> (x <=? y)%float = false.
Proof.
  intros H. rewrite leb_spec, (Prim2SF_nan y H).
  by destruct (Prim2SF x) as [[]|[]| |[] m e].
Qed.

Lemma leb_nan_l (x y : float) : is_nan x = true -> (x <=? y)%float = false.
Proof. intros H. by rewrite leb_spec, (Prim2SF_nan x H). Qed.

(** The order of the doubles is transitive. *)
Lemma SFleb_trans (x y z : spec_float) :
  SFleb x y = true -> SFleb y z = true -> SFleb x z = true.
Proof.
  unfold SFleb, SFcompare.
  destruct x as [sx|sx| |sx mx ex], y as [sy|sy| |sy my ey],
    z as [sz|sz| |sz mz ez];
    try destruct sx; try destruct sy; try destruct sz;
    try reflexivity; try discriminate;
    change (Pos.compare_cont Eq) with Pos.compare;
    destruct (Z.compare_spec ex ey), (Z.compare_spec ey ez),
      (Z.compare_spec ex ez);
    try reflexivity; try discriminate; try lia;
    destruct (Pos.compare_spec mx my), (Pos.compare_spec my mz),
      (Pos.compare_spec mx mz);
    cbn; try reflexivity; try discriminate; try lia.
Qed.

Lemma leb_trans (x y z : float) :
  (x <=? y)%float = true -> (y <=? z)%float = true -> (x <=? z)%float = true.
Proof. rewrite !leb_spec. apply SFleb_trans. Qed.

(** A mantissa of [d] binary digits lies between [2 ^ (d - 1)] and
    [2 ^ d]. *)
Lemma digits2_pos_bounds (m : positive) :
  2 ^ (Z.pos (digits2_pos m) - 1) <= Z.pos m < 2 ^ Z.pos (digits2_pos m).
Proof.
  induction m as [p IH | p IH | ]; cbn [digits2_pos];
    [ | | by cbn; lia];
    rewrite Pos2Z.inj_succ;
    replace (Z.succ (Z.pos (digits2_pos p)) - 1)
      with (Z.succ (Z.pos (digits2_pos p) - 1)) by lia;
    rewrite !Z.pow_succ_r by lia; lia.
Qed.

(** The finite doubles are [m * 2 ^ e] with [m] below [2 ^ 53] and [e] at
    least [-1074]; above that exponent the mantissa has all its 53 digits. *)
Lemma valid_finite (s : bool) (m : positive) (e : Z) :
  valid_binary (S754_finite s m e) = true ->
  -1074 <= e /\ Z.pos m < 2 ^ 53 /\ (-1074 < e -> 2 ^ 52 <= Z.pos m).
Proof.
  unfold valid_binary, SpecFloat.valid_binary, bounded, canonical_mantissa,
    fexp, emin, prec, emax.
  intros [Hc _]%andb_true_iff. apply Z.eqb_eq in Hc.
  pose proof (digits2_pos_bounds m) as [Hlo Hhi].
  set (d := Z.pos (digits2_pos m)) in *.
  assert (Hd : 0 < d) by (unfold d; lia).
  destruct (Z.max_spec (d + e - 53) (3 - 1024 - 53))
    as [[Hlt Hmax] | [Hge Hmax]]; rewrite Hmax in Hc.
  - split; [lia | ]. split; [ | lia].
    eapply Z.lt_le_trans; [exact Hhi | ].
    apply Z.pow_le_mono_r; lia.
  - assert (d = 53) as Hd53 by lia. rewrite Hd53 in *.
    split; [lia | ]. split; [exact Hhi | ]. intros _. exact Hlo.
Qed.

(** Comparing an int with [v * 2 ^ e] compares it in units of
    [2 ^ -1074]. *)
Lemma int_le_finite (n v e : Z) :
  -1074 <= e ->
  (if 0 <=? e then n <=? v * 2 ^ e else n * 2 ^ (- e) <=? v)
  = (n * 2 ^ 1074 <=? v * 2 ^ (e + 1074)).
Proof.
  intros He.
  destruct (Z.leb_spec 0 e) as [Hpos | Hneg].
  - rewrite Z.pow_add_r by lia.
    assert (Ha : 0 < 2 ^ 1074) by (by apply Z.pow_pos_nonneg).
    assert (Hb : 0 < 2 ^ e) by (by apply Z.pow_pos_nonneg).
    revert Ha Hb. generalize (2 ^ 1074) (2 ^ e). intros a b Ha Hb.
    destruct (Z.leb_spec n (v * b)), (Z.leb_spec (n * a) (v * (b * a)));
      try reflexivity; nia.
  - replace (2 ^ 1074) with (2 ^ (- e) * 2 ^ (e + 1074))
      by (rewrite <- Z.pow_add_r by lia; f_equal; lia).
    assert (Ha : 0 < 2 ^ (e + 1074)) by (apply Z.pow_pos_nonneg; lia).
    assert (Hb : 0 < 2 ^ (- e)) by (apply Z.pow_pos_nonneg; lia).
    revert Ha Hb. generalize (2 ^ (e + 1074)) (2 ^ (- e)). intros a b Ha Hb.
    destruct (Z.leb_spec (n * b) v), (Z.leb_spec (n * (b * a)) (v * a));
      try reflexivity; nia.
Qed.

Lemma finite_le_int (n v e : Z) :
  -1074 <= e ->
  (if 0 <=? e then v * 2 ^ e <=? n else v <=? n * 2 ^ (- e))
  = (v * 2 ^ (e + 1074) <=? n * 2 ^ 1074).
Proof.
  intros He.
  destruct (Z.leb_spec 0 e) as [Hpos | Hneg].
  - rewrite Z.pow_add_r by lia.
    assert (Ha : 0 < 2 ^ 1074) by (by apply Z.pow_pos_nonneg).
    assert (Hb : 0 < 2 ^ e) by (by apply Z.pow_pos_nonneg).
    revert Ha Hb. generalize (2 ^ 1074) (2 ^ e). intros a b Ha Hb.
    destruct (Z.leb_spec (v * b) n), (Z.leb_spec (v * (b * a)) (n * a));
      try reflexivity; nia.
  - replace (2 ^ 1074) with (2 ^ (- e) * 2 ^ (e + 1074))
      by (rewrite <- Z.pow_add_r by lia; f_equal; lia).
    assert (Ha : 0 < 2 ^ (e + 1074)) by (apply Z.pow_pos_nonneg; lia).
    assert (Hb : 0 < 2 ^ (- e)) by (apply Z.pow_pos_nonneg; lia).
    revert Ha Hb. generalize (2 ^ (e + 1074)) (2 ^ (- e)). intros a b Ha Hb.
    destruct (Z.leb_spec v (n * b)), (Z.leb_spec (v * a) (n * (b * a)));
      try reflexivity; nia.
Qed.

(** The order of the finite doubles is the order of their values. *)
Lemma SFleb_units (s1 s2 : bool) (m1 m2 : positive) (e1 e2 : Z) :
  valid_binary (S754_finite s1 m1 e1) = true ->
  valid_binary (S754_finite s2 m2 e2) = true ->
  SFleb (S754_finite s1 m1 e1) (S754_finite s2 m2 e2) = true ->
  float_units (S754_finite s1 m1 e1) <= float_units (S754_finite s2 m2 e2).
Proof.
  intros (He1 & Hm1 & Hn1)%valid_finite (He2 & Hm2 & Hn2)%valid_finite.
  unfold SFleb, SFcompare, float_units.
  change (Pos.compare_cont Eq) with Pos.compare.
  assert (Hp1 : 0 < 2 ^ (e1 + 1074)) by (apply Z.pow_pos_nonneg; lia).
  assert (Hp2 : 0 < 2 ^ (e2 + 1074)) by (apply Z.pow_pos_nonneg; lia).
  assert (Hstep : forall a b, -1074 <= a -> a < b ->
            2 * 2 ^ (a + 1074) <= 2 ^ (b + 1074)).
  { intros a b Ha Hab. rewrite <- Z.pow_succ_r by lia.
    apply Z.pow_le_mono_r; lia. }
  assert (H53 : 2 ^ 53 = 2 * 2 ^ 52) by reflexivity.
  destruct s1, s2; try discriminate; try nia.
  - destruct (Z.compare_spec e1 e2) as [-> | Hlt | Hgt]; try discriminate.
    + destruct (Pos.compare_spec m1 m2); cbn; try discriminate; intros _; nia.
    + intros _. specialize (Hstep e2 e1 He2 Hgt).
      specialize (Hn1 ltac:(lia)). nia.
  - destruct (Z.compare_spec e1 e2) as [-> | Hlt | Hgt]; try discriminate.
    + destruct (Pos.compare_spec m1 m2); try discriminate; intros _; nia.
    + intros _. specialize (Hstep e1 e2 He1 Hlt).
      specialize (Hn2 ltac:(lia)). nia.
Qed.

(** An int that is at most a float is at most every greater float. *)
Lemma int_le_float_mono (n : Z) (x y : float) :
  int_le_float n x = true -> (x <=? y)%float = true ->
  int_le_float n y = true.
Proof.
  unfold int_le_float. rewrite leb_spec.
  pose proof (Prim2SF_valid x) as Hx. pose proof (Prim2SF_valid y) as Hy.
  destruct (Prim2SF x) as [sx | sx | | sx mx ex],
    (Prim2SF y) as [sy | sy | | sy my ey];
    try destruct sx; try destruct sy; try discriminate; try done.
  all: try (intros Hn _; apply Z.leb_le in Hn;
            destruct (Z.leb_spec 0 ey);
            apply Z.leb_le;
            [assert (0 < 2 ^ ey) by (by apply Z.pow_pos_nonneg); nia
            | assert (0 < 2 ^ (- ey)) by (apply Z.pow_pos_nonneg; lia);
              nia]).
  all: try (intros Hn _; apply Z.leb_le;
            destruct (Z.leb_spec 0 ex); apply Z.leb_le in Hn;
            [assert (0 < 2 ^ ex) by (by apply Z.pow_pos_nonneg); nia
            | assert (0 < 2 ^ (- ex)) by (apply Z.pow_pos_nonneg; lia);
              nia]).
  all: pose proof (valid_finite _ _ _ Hx) as (Hex & _);
    pose proof (valid_finite _ _ _ Hy) as (Hey & _);
    rewrite (int_le_finite n _ ex Hex), (int_le_finite n _ ey Hey);
    intros Hn Hle; apply Z.leb_le in Hn; apply Z.leb_le;
    pose proof (SFleb_units _ _ _ _ _ _ Hx Hy Hle) as Hu;
    unfold float_units in Hu; lia.
Qed.

(** An int that is at least a float is at least every smaller float. *)
Lemma float_le_int_mono (n : Z) (x y : float) :
  float_le_int x n = true -> (y <=? x)%float = true ->
  float_le_int y n = true.
Proof.
  unfold float_le_int. rewrite leb_spec.
  pose proof (Prim2SF_valid x) as Hx. pose proof (Prim2SF_valid y) as Hy.
  destruct (Prim2SF x) as [sx | sx | | sx mx ex],
    (Prim2SF y) as [sy | sy | | sy my ey];
    try destruct sx; try destruct sy; try discriminate; try done.
  all: try (intros Hn _; apply Z.leb_le in Hn;
            destruct (Z.leb_spec 0 ey);
            apply Z.leb_le;
            [assert (0 < 2 ^ ey) by (by apply Z.pow_pos_nonneg); nia
            | assert (0 < 2 ^ (- ey)) by (apply Z.pow_pos_nonneg; lia);
              nia]).
  all: try (intros Hn _; apply Z.leb_le;
            destruct (Z.leb_spec 0 ex); apply Z.leb_le in Hn;
            [assert (0 < 2 ^ ex) by (by apply Z.pow_pos_nonneg); nia
            | assert (0 < 2 ^ (- ex)) by (apply Z.pow_pos_nonneg; lia);
              nia]).
  all: pose proof (valid_finite _ _ _ Hx) as (Hex & _);
    pose proof (valid_finite _ _ _ Hy) as (Hey & _);
    rewrite (finite_le_int n _ ex Hex), (finite_le_int n _ ey Hey);
    intros Hn Hle; apply Z.leb_le in Hn; apply Z.leb_le;
    pose proof (SFleb_units _ _ _ _ _ _ Hy Hx Hle) as Hu;
    unfold float_units in Hu; lia.
Qed.

End FloatOrder.

(** ** The metric engine: lemmas *)

Section ComputeLemmas.

Variables (ticker : string) (info : yf_info) (price : option float)
  (g a : float).

Let ri : gmap string pyval := default ∅ (get_raw info).

(** The row [compute_metrics] returns, when it returns. *)
Lemma compute_metrics_fields (r : row) :
  compute_metrics ticker info price g a = Ok r ->
  r !! "Ticker" = Some (PStr ticker)
  /\ dividend_yield_pct ri = Ok (cell "Dividend Yield (%)" r)
  /\ r !! "FCF Yield (%)"
     = Some (fcf_yield (dict_get ri "freeCashflow") (dict_get ri "marketCap"))
  /\ r !! "Graham Value (est. USD)"
     = Some (graham_block (dict_get ri "trailingEps") price g a).1
  /\ r !! "Margin of Safety (%)"
     = Some (graham_block (dict_get ri "trailingEps") price g a).2.
Proof.
  unfold compute_metrics. fold ri.
  destruct (dividend_yield_pct ri) as [dy | e]; [ | done].
  cbn [mbind result_bind].
  destruct (graham_block (dict_get ri "trailingEps") price g a) as [gv mos].
  intros [= <-]. repeat split; reflexivity.
Qed.

Lemma compute_metrics_Raise (e : exn) :
  compute_metrics ticker info price g a = Raise e
  <-> dividend_yield_pct ri = Raise e.
Proof.
  unfold compute_metrics. fold ri.
  destruct (dividend_yield_pct ri) as [dy | e']; cbn [mbind result_bind].
  - destruct (graham_block (dict_get ri "trailingEps") price g a).
    split; discriminate.
  - split; intros [= ->]; reflexivity.
Qed.

End ComputeLemmas.

Section GrahamLemmas.

Variables (eps : pyval) (price : option float) (g a : float).

(** The guard of line 83 fails when the earnings are absent or the rate is
    not above zero; both cells are then [None]. *)
Lemma graham_block_guard :
  eps = PNone \/ (0 <? a)%float = false ->
  graham_block eps price g a = (PNone, PNone).
Proof.
  unfold graham_block. intros [-> | Ha]; [reflexivity | ].
  rewrite Ha, andb_false_r. reflexivity.
Qed.

(** A Graham value is only ever computed behind the guard. *)
Lemma graham_block_computed :
  (graham_block eps price g a).1 <> PNone ->
  eps <> PNone /\ (0 <? a)%float = true.
Proof.
  intros H. split.
  - intros ->. by apply H.
  - destruct (0 <? a)%float eqn:Ha; [reflexivity | ].
    exfalso. apply H. rewrite graham_block_guard; auto.
Qed.

(** A zero price leaves the margin of safety unknown. *)
Lemma graham_block_zero_price (p : float) :
  price = Some p -> (p =? 0)%float = true ->
  (graham_block eps price g a).2 = PNone.
Proof.
  intros -> Hp. unfold graham_block, float_truthy. rewrite Hp.
  destruct (negb (is_None eps) && negb (a =? 0)%float && (0 <? a)%float);
    [ | reflexivity].
  destruct (mul_float eps _) as [x | e]; [ | reflexivity].
  cbn [mbind result_bind].
  destruct (float_div _ _) as [gv | e]; reflexivity.
Qed.

(** Earnings of zero: the product is zero, so is the Graham value when the
    divisor is a positive number, and the margin of safety is unknown. *)
Lemma mul_float_zero (x : float) :
  is_zero_number eps = true -> is_finite x = true ->
  exists z, mul_float eps x = Ok z /\ (z =? 0)%float = true.
Proof.
  intros Heps Hx. destruct eps as [ | b | n | y | s]; try discriminate; cbn in Heps.
  - destruct b; [discriminate | ]. eexists. split; [reflexivity | ].
    by apply mul_zero_finite.
  - apply Z.eqb_eq in Heps as ->. eexists. split; [reflexivity | ].
    by apply mul_zero_finite.
  - eexists. split; [reflexivity | ]. by apply mul_zero_finite.
Qed.

Lemma graham_block_zero_eps :
  is_zero_number eps = true ->
  (0 <? a)%float = true ->
  (0 <? a / 100)%float = true ->
  is_finite (8.5 + 2 * (g / 100))%float = true ->
  exists z, graham_block eps price g a = (PFloat z, PNone)
            /\ (z =? 0)%float = true.
Proof.
  intros Heps Ha Hd Hf. unfold graham_block.
  assert (is_None eps = false) as -> by (by destruct eps).
  unfold float_truthy at 1. rewrite (pos_not_zero a Ha), Ha. cbn [negb andb].
  destruct (mul_float_zero _ Heps Hf) as (z & -> & Hz).
  cbn [mbind result_bind]. unfold float_div.
  rewrite (pos_not_zero _ Hd). cbn [mbind result_bind].
  assert (Hgv : ((z * 4.4) / (a / 100) =? 0)%float = true).
  { apply div_zero_pos; [ | exact Hd]. by apply mul_zero_finite. }
  exists ((z * 4.4) / (a / 100))%float. split; [ | exact Hgv].
  unfold float_truthy. rewrite Hgv.
  destruct price as [p | ]; [ | reflexivity].
  rewrite andb_false_r. reflexivity.
Qed.

End GrahamLemmas.


Section FcfLemmas.

Variables (fcf mcap : pyval).

Lemma fcf_yield_value (x y : float) :
  fcf <> PNone -> truthy mcap = true ->
  py_float fcf = Ok x -> py_float mcap = Ok y -> (y =? 0)%float = false ->
  fcf_yield fcf mcap = PFloat (x / y * 100)%float.
Proof.
  intros Hf Hm Hx Hy Hz. unfold fcf_yield, float_div.
  assert (is_None fcf = false) as -> by (by destruct fcf).
  rewrite Hm, Hx, Hy. cbn [negb andb mbind result_bind]. rewrite Hz.
  reflexivity.
Qed.

Lemma fcf_yield_unknown :
  fcf = PNone \/ truthy mcap = false
  \/ (exists e, py_float fcf = Raise e)
  \/ (exists e, py_float mcap = Raise e)
  \/ (exists y, py_float mcap = Ok y /\ (y =? 0)%float = true) ->
  fcf_yield fcf mcap = PNone.
Proof.
  unfold fcf_yield, float_div.
  intros [-> | [Hm | [[e Hx] | [[e Hy] | (y & Hy & Hz)]]]].
  - reflexivity.
  - rewrite Hm, andb_false_r. reflexivity.
  - rewrite Hx. by destruct (negb (is_None fcf) && truthy mcap).
  - rewrite Hy.
    destruct (negb (is_None fcf) && truthy mcap); [ | reflexivity].
    by destruct (py_float fcf).
  - rewrite Hy.
    destruct (negb (is_None fcf) && truthy mcap); [ | reflexivity].
    destruct (py_float fcf); [ | reflexivity].
    cbn [mbind result_bind]. rewrite Hz. reflexivity.
Qed.

(** A market cap of zero is not true, so nothing is divided. *)
Lemma fcf_yield_zero_market_cap :
  is_zero_number mcap = true -> fcf_yield fcf mcap = PNone.
Proof.
  intros Hz. apply fcf_yield_unknown. right. left.
  destruct mcap as [ | b | n | x | s]; try discriminate; cbn in *.
  - by destruct b.
  - by rewrite Hz.
  - unfold float_truthy. by rewrite Hz.
Qed.

End FcfLemmas.

Section RowLemmas.

Variables (ticker : string) (info : yf_info) (price : option float)
  (g a : float).

Let ri : gmap string pyval := default ∅ (get_raw info).

(** Every cell of the row [compute_metrics] returns. *)
Lemma compute_metrics_cells (r : row) :
  compute_metrics ticker info price g a = Ok r ->
  exists dy,
    dividend_yield_pct ri = Ok dy
    /\ r = list_to_map
         [("Ticker", PStr ticker); ("Price (USD)", of_option price);
          ("P/E", dict_get ri "trailingPE"); ("P/B", dict_get ri "priceToBook");
          ("Debt/Equity", debt_to_equity ri); ("Dividend Yield (%)", dy);
          ("FreeCashflow (USD)", dict_get ri "freeCashflow");
          ("MarketCap (USD)", dict_get ri "marketCap");
          ("FCF Yield (%)",
           fcf_yield (dict_get ri "freeCashflow") (dict_get ri "marketCap"));
          ("Graham Value (est. USD)",
           (graham_block (dict_get ri "trailingEps") price g a).1);
          ("Margin of Safety (%)",
           (graham_block (dict_get ri "trailingEps") price g a).2);
          ("Sector", dict_get ri "sector"); ("Industry", dict_get ri "industry")].
Proof.
  unfold compute_metrics. fold ri.
  destruct (dividend_yield_pct ri) as [dy | e]; [ | done].
  cbn [mbind result_bind].
  destruct (graham_block (dict_get ri "trailingEps") price g a) as [gv mos].
  intros [= <-]. exists dy. split; [done | ].
  reflexivity.
Qed.

Lemma compute_metrics_dom (r : row) :
  compute_metrics ticker info price g a = Ok r -> dom r = row_columns.
Proof.
  intros Hr. destruct (compute_metrics_cells r Hr) as (dy & _ & ->).
  reflexivity.
Qed.

Lemma dividend_yield_returns (dy : pyval) :
  dividend_yield_pct ri = Ok dy ->
  exists r, compute_metrics ticker info price g a = Ok r
            /\ r !! "Dividend Yield (%)" = Some dy.
Proof.
  intros Hdy. unfold compute_metrics. fold ri. rewrite Hdy.
  cbn [mbind result_bind].
  destruct (graham_block (dict_get ri "trailingEps") price g a) as [gv mos].
  eexists. split; reflexivity.
Qed.

End RowLemmas.

Section CellLemmas.

Lemma debt_to_equity_typed (ri : gmap string pyval) :
  none_or_float (debt_to_equity ri) = true.
Proof.
  unfold debt_to_equity.
  destruct (dict_get ri "debtToEquity") as [ | b | n | x | s]; cbn;
    try reflexivity.
  - by destruct (float_of_int n).
  - by destruct (float_of_string s).
Qed.

Lemma dividend_yield_typed (ri : gmap string pyval) (dy : pyval) :
  dividend_yield_pct ri = Ok dy -> none_or_float dy = true.
Proof.
  unfold dividend_yield_pct.
  destruct (is_None _); [by intros [= <-] | ].
  destruct (py_float _); [by intros [= <-] | done].
Qed.

Lemma fcf_yield_typed (fcf mcap : pyval) :
  none_or_float (fcf_yield fcf mcap) = true.
Proof.
  unfold fcf_yield.
  destruct (negb (is_None fcf) && truthy mcap); [ | reflexivity].
  destruct (py_float fcf); [ | reflexivity].
  destruct (py_float mcap); [ | reflexivity].
  cbn [mbind result_bind]. by destruct (float_div _ _).
Qed.

(** The outcomes of the Graham block: nothing, a Graham value alone, or a
    Graham value with the margin of safety it gives for a price that, like
    the value, is not zero. *)
Lemma graham_block_cases (eps : pyval) (price : option float) (g a : float) :
  graham_block eps price g a = (PNone, PNone)
  \/ (exists gv, graham_block eps price g a = (PFloat gv, PNone))
  \/ (exists gv p,
        graham_block eps price g a
        = (PFloat gv, PFloat ((gv - p) / gv * 100)%float)
        /\ price = Some p
        /\ float_truthy p = true /\ float_truthy gv = true).
Proof.
  unfold graham_block.
  destruct (negb (is_None eps) && float_truthy a && (0 <? a)%float);
    [ | by left].
  destruct (mul_float eps _) as [x | e]; [ | by left].
  cbn [mbind result_bind].
  destruct (float_div (x * 4.4) (a / 100.0)) as [gv | e]; [ | by left].
  cbn [mbind result_bind].
  destruct price as [p | ]; [ | right; left; by exists gv].
  destruct (float_truthy p) eqn:Hp; [ | right; left; by exists gv].
  destruct (float_truthy gv) eqn:Hgv; [ | right; left; by exists gv].
  cbn [andb]. unfold float_div. unfold float_truthy in Hgv.
  apply negb_true_iff in Hgv. rewrite Hgv. cbn [mbind result_bind try_except].
  right. right. exists gv, p. repeat split; try done.
  unfold float_truthy. by rewrite Hgv.
Qed.

(** Multiplying a number by a float multiplies its conversion. *)
Lemma mul_float_number (v : pyval) (e x : float) :
  numeric_or_unknown v = true -> py_float v = Ok e ->
  mul_float v x = Ok (e * x)%float.
Proof.
  destruct v as [ | b | n | y | s]; cbn; try done.
  - by intros _ [= <-].
  - intros _ ->. done.
  - by intros _ [= <-].
Qed.

End CellLemmas.

Section RowShape.

Variables (ticker : string) (info : yf_info) (price : option float)
  (g a : float) (r : row).

Hypothesis Hr : compute_metrics ticker info price g a = Ok r.

(** The keys of a returned row. *)
Lemma compute_metrics_columns :
  dom r = row_columns
  /\ Forall (fun c => c ∈ dom r) filter_columns
  /\ r !! "Ticker" = Some (PStr ticker)
  /\ r !! "Price (USD)" = Some (of_option price).
Proof using Hr.
  destruct (compute_metrics_cells _ _ _ _ _ _ Hr) as (dy & _ & ->).
  split; [reflexivity | ]. split; [ | split; reflexivity].
  apply (bool_decide_unpack _). vm_compute. exact I.
Qed.

(** The cells that [compute_metrics] derives are floats or [None]. *)
Lemma compute_metrics_derived_cells :
  Forall (fun c => none_or_float (cell c r) = true)
    ["Price (USD)"; "Debt/Equity"; "Dividend Yield (%)"; "FCF Yield (%)";
     "Graham Value (est. USD)"; "Margin of Safety (%)"].
Proof using Hr.
  destruct (compute_metrics_cells _ _ _ _ _ _ Hr) as (dy & Hdy & ->).
  set (ri := default ∅ (get_raw info)) in *.
  repeat apply Forall_cons_2; [ .. | apply Forall_nil_2].
  - change (none_or_float (of_option price) = true). by destruct price.
  - change (none_or_float (debt_to_equity ri) = true).
    apply debt_to_equity_typed.
  - change (none_or_float dy = true). by eapply dividend_yield_typed.
  - change (none_or_float
              (fcf_yield (dict_get ri "freeCashflow") (dict_get ri "marketCap"))
            = true).
    apply fcf_yield_typed.
  - change (none_or_float
              (graham_block (dict_get ri "trailingEps") price g a).1 = true).
    destruct (graham_block_cases (dict_get ri "trailingEps") price g a)
      as [-> | [[gv ->] | (gv & p & -> & _)]]; reflexivity.
  - change (none_or_float
              (graham_block (dict_get ri "trailingEps") price g a).2 = true).
    destruct (graham_block_cases (dict_get ri "trailingEps") price g a)
      as [-> | [[gv ->] | (gv & p & -> & _)]]; reflexivity.
Qed.

End RowShape.

(** ** The metric engine: properties *)

(** C1.  [compute_metrics] raises on a dividend yield that [float] cannot
    convert: the conversion of line 69 is outside every [try], unlike the
    debt-to-equity conversion of the same text, which yields [None].  The
    row is then the handler's fallback row, which has lost the P/E that was
    fetched.  The dividend-yield conversion is the only statement that can
    raise. *)
Theorem dividend_yield_failure_aborts_row :
  compute_metrics "AAA" info_text_dividend (Some 100%float) 5 4
    = Raise ValueError
  /\ debt_to_equity (default ∅ (get_raw info_text_dividend)) = PNone
  /\ dict_get (default ∅ (get_raw info_text_dividend)) "trailingPE"
     = PFloat 12.5
  /\ try_except
       (compute_metrics "AAA" info_text_dividend (Some 100%float) 5 4)
       (fallback_row "AAA") !! "P/E" = None
  /\ forall ticker info price g a e,
       compute_metrics ticker info price g a = Raise e
       <-> dividend_yield_pct (default ∅ (get_raw info)) = Raise e.
Proof.
  do 4 (split; [vm_compute; reflexivity | ]).
  intros. apply compute_metrics_Raise.
Qed.

(** C4.  The scenario "AAA": earnings per share 5 (an int or a float),
    growth 5%, discount rate 4% and price 100 give a Graham value of exactly
    4730 and a margin of safety of [(4730 - 100) / 4730 * 100], the double
    97.885835095137423, which is 97.89 to two decimals. *)
Theorem scenario_aaa :
  Forall
    (fun info =>
       exists r,
         compute_metrics "AAA" info (Some 100%float) 5 4 = Ok r
         /\ exists m,
         r !! "Graham Value (est. USD)" = Some (PFloat 4730)
         /\ r !! "Margin of Safety (%)" = Some (PFloat m)
         /\ m = ((4730 - 100) / 4730 * 100)%float
         /\ m = 97.885835095137423%float
         /\ (abs (m - 97.89) <? 0.005)%float = true)
    [info_aaa_int; info_aaa_float].
Proof.
  apply Forall_cons_2; [ | apply Forall_cons_2; [ | apply Forall_nil_2] ];
    apply returns_ex; vm_compute; eexists; repeat split.
Qed.

(** C5, as stated, fails.  With a free cash flow of 1e308 and a market cap of
    0.001, both present and the market cap not zero, the yield is infinite;
    with a free cash flow that is the text "N/A" and a market cap of 5, both
    present and the market cap not zero, the yield is unknown. *)
Lemma fcf_yield_infinite_or_unknown_with_both_present :
  (exists r,
     compute_metrics "BBB" info_fcf_overflow None 5 4 = Ok r
     /\ r !! "FreeCashflow (USD)" = Some (PFloat 1e308)
     /\ r !! "MarketCap (USD)" = Some (PFloat 0.001)
     /\ r !! "FCF Yield (%)" = Some (PFloat infinity))
  /\ (exists r,
        compute_metrics "BBB" info_fcf_text None 5 4 = Ok r
        /\ r !! "FreeCashflow (USD)" = Some (PStr "N/A")
        /\ r !! "MarketCap (USD)" = Some (PInt 5)
        /\ r !! "FCF Yield (%)" = Some PNone).
Proof.
  split; evaluate.
Qed.

(** C5, amended.  Whenever [compute_metrics] returns a row, its FCF yield is
    [float(fcf) / float(mcap) * 100], in double arithmetic, exactly when the
    free cash flow is present, the market cap is true (present, not zero, not
    empty), both convert to floats and the divisor is not zero; in every
    other case it is unknown.  In particular a market cap of zero gives
    unknown: nothing is divided. *)
Theorem fcf_yield_cases (ticker : string) (info : yf_info)
    (price : option float) (g a : float) (r : row) :
  compute_metrics ticker info price g a = Ok r ->
  let fcf := dict_get (default ∅ (get_raw info)) "freeCashflow" in
  let mcap := dict_get (default ∅ (get_raw info)) "marketCap" in
  (forall x y,
     fcf <> PNone -> truthy mcap = true ->
     py_float fcf = Ok x -> py_float mcap = Ok y -> (y =? 0)%float = false ->
     r !! "FCF Yield (%)" = Some (PFloat (x / y * 100)%float))
  /\ (fcf = PNone \/ truthy mcap = false
      \/ (exists e, py_float fcf = Raise e)
      \/ (exists e, py_float mcap = Raise e)
      \/ (exists y, py_float mcap = Ok y /\ (y =? 0)%float = true) ->
      r !! "FCF Yield (%)" = Some PNone)
  /\ (is_zero_number mcap = true -> r !! "FCF Yield (%)" = Some PNone).
Proof.
  intros Hr fcf mcap.
  destruct (compute_metrics_fields _ _ _ _ _ _ Hr) as (_ & _ & -> & _).
  fold fcf mcap. repeat split.
  - intros x y ? ? ? ? ?. f_equal. by apply fcf_yield_value.
  - intros H. f_equal. by apply fcf_yield_unknown.
  - intros H. f_equal. by apply fcf_yield_zero_market_cap.
Qed.

(** The plain scenario "CCC" (50 over 1000) and the scenario "BBB" (market
    cap 0) are such rows. *)
Lemma fcf_yield_cases_witness :
  compute_metrics "CCC" info_fcf_plain None 5 4 = Ok row_ccc
  /\ row_ccc !! "FCF Yield (%)" = Some (PFloat (50 / 1000 * 100)%float)
  /\ compute_metrics "BBB" info_bbb None 5 4 = Ok row_bbb
  /\ row_bbb !! "FCF Yield (%)" = Some PNone.
Proof.
  assert (Hccc : compute_metrics "CCC" info_fcf_plain None 5 4 = Ok row_ccc).
  { returned_row. }
  assert (Hbbb : compute_metrics "BBB" info_bbb None 5 4 = Ok row_bbb).
  { returned_row. }
  split; [exact Hccc | ]. split; [ | split; [exact Hbbb | ] ].
  - apply (fcf_yield_cases "CCC" info_fcf_plain None 5 4 row_ccc Hccc);
      try (vm_compute; reflexivity); discriminate.
  - apply (fcf_yield_cases "BBB" info_bbb None 5 4 row_bbb Hbbb).
    vm_compute. reflexivity.
Defined.

(** C6.  With no earnings per share, or with a discount rate that is not
    above zero, a row that [compute_metrics] returns has an unknown Graham
    value and an unknown margin of safety, and a Graham value is present only
    when the earnings are present and the rate is above zero.  But
    [compute_metrics] does not return a row on every such input: on a
    dividend yield that [float] cannot convert it raises before it reaches
    the Graham block (the defect of C1). *)
Theorem graham_guard_behind_dividend_yield :
  compute_metrics "AAA" info_no_eps_text_dividend (Some 100%float) 5 4
    = Raise ValueError
  /\ compute_metrics "AAA" info_eps_text_dividend (Some 0%float) 5 0
     = Raise ValueError
  /\ (forall ticker info price g a r,
        compute_metrics ticker info price g a = Ok r ->
        dict_get (default ∅ (get_raw info)) "trailingEps" = PNone
        \/ (0 <? a)%float = false ->
        r !! "Graham Value (est. USD)" = Some PNone
        /\ r !! "Margin of Safety (%)" = Some PNone)
  /\ (forall ticker info price g a r,
        compute_metrics ticker info price g a = Ok r ->
        r !! "Graham Value (est. USD)" <> Some PNone ->
        dict_get (default ∅ (get_raw info)) "trailingEps" <> PNone
        /\ (0 <? a)%float = true)
  /\ (exists r,
        compute_metrics "AAA" info_no_eps (Some 100%float) 5 4 = Ok r
        /\ r !! "Graham Value (est. USD)" = Some PNone
        /\ r !! "Margin of Safety (%)" = Some PNone).
Proof.
  do 2 (split; [vm_compute; reflexivity | ]). split; [ | split].
  - intros ticker info price g a r Hr Hguard.
    destruct (compute_metrics_fields _ _ _ _ _ _ Hr) as (_ & _ & _ & -> & ->).
    by rewrite graham_block_guard.
  - intros ticker info price g a r Hr Hgv.
    destruct (compute_metrics_fields _ _ _ _ _ _ Hr) as (_ & _ & _ & Hg & _).
    apply (graham_block_computed _ price g a). intros Hnone.
    apply Hgv. by rewrite Hg, Hnone.
  - evaluate.
Qed.

(** C9.  A price of zero is treated as an absent price: a row that
    [compute_metrics] returns for a zero price has an unknown margin of
    safety, also when the Graham value is computed and not zero.  But
    [compute_metrics] does not return a row on every such input: on a
    dividend yield that [float] cannot convert it raises before it reaches
    the Graham block (the defect of C1). *)
Theorem zero_price_behind_dividend_yield :
  compute_metrics "AAA" info_eps_text_dividend (Some 0%float) 5 4
    = Raise ValueError
  /\ (forall ticker info p g a r,
        compute_metrics ticker info (Some p) g a = Ok r ->
        (p =? 0)%float = true ->
        r !! "Margin of Safety (%)" = Some PNone)
  /\ (exists r,
        compute_metrics "AAA" info_aaa_zero_price (Some 0%float) 5 4 = Ok r
        /\ r !! "Graham Value (est. USD)" = Some (PFloat 4730)
        /\ r !! "Margin of Safety (%)" = Some PNone).
Proof.
  split; [vm_compute; reflexivity | ]. split.
  - intros ticker info p g a r Hr Hp.
    destruct (compute_metrics_fields _ _ _ _ _ _ Hr) as (_ & _ & _ & _ & ->).
    by rewrite (graham_block_zero_price _ _ _ _ p).
  - evaluate.
Qed.

(** C10, as stated, fails.  With earnings per share of 0 and the discount
    rate [tiny], which is above zero, the rate's hundredth is zero, the
    division raises and the Graham value is unknown; with an infinite growth
    rate the Graham value is NaN and so is the margin of safety. *)
Lemma zero_eps_graham_unknown_or_nan :
  (0 <? tiny)%float = true
  /\ (exists r,
        compute_metrics "ZZZ" info_zero_eps (Some 100%float) 5 tiny = Ok r
        /\ r !! "Graham Value (est. USD)" = Some PNone)
  /\ (exists r,
        compute_metrics "ZZZ" info_zero_eps (Some 100%float) infinity 4 = Ok r
        /\ r !! "Graham Value (est. USD)" = Some (PFloat nan)
        /\ r !! "Margin of Safety (%)" = Some (PFloat nan)).
Proof.
  split; [reflexivity | ].
  split; evaluate.
Qed.

(** C10, amended.  Whenever [compute_metrics] returns a row, with earnings
    per share equal to zero, a discount rate above zero whose hundredth is
    still above zero, and a growth rate for which [8.5 + 2 * growth / 100] is
    finite, the Graham value is present and equal to zero and the margin of
    safety is unknown, whatever the price. *)
Theorem zero_eps_graham_zero (ticker : string) (info : yf_info)
    (price : option float) (g a : float) (r : row) :
  compute_metrics ticker info price g a = Ok r ->
  is_zero_number (dict_get (default ∅ (get_raw info)) "trailingEps") = true ->
  (0 <? a)%float = true ->
  (0 <? a / 100)%float = true ->
  is_finite (8.5 + 2 * (g / 100))%float = true ->
  exists z,
    r !! "Graham Value (est. USD)" = Some (PFloat z)
    /\ (z =? 0)%float = true
    /\ r !! "Margin of Safety (%)" = Some PNone.
Proof.
  intros Hr Heps Ha Hd Hf.
  destruct (compute_metrics_fields _ _ _ _ _ _ Hr) as (_ & _ & _ & -> & ->).
  destruct (graham_block_zero_eps _ price g a Heps Ha Hd Hf) as (z & -> & Hz).
  by exists z.
Qed.

(** Earnings of zero with the default growth and discount rates. *)
Lemma zero_eps_graham_zero_witness :
  compute_metrics "ZZZ" info_zero_eps (Some 100%float) 5 4 = Ok row_zzz
  /\ exists z,
       row_zzz !! "Graham Value (est. USD)" = Some (PFloat z)
       /\ (z =? 0)%float = true
       /\ row_zzz !! "Margin of Safety (%)" = Some PNone.
Proof.
  assert (Hzzz : compute_metrics "ZZZ" info_zero_eps (Some 100%float) 5 4
                 = Ok row_zzz).
  { returned_row. }
  split; [exact Hzzz | ].
  apply (zero_eps_graham_zero "ZZZ" info_zero_eps (Some 100%float) 5 4
           row_zzz Hzzz);
    vm_compute; reflexivity.
Defined.

(** ** The metric engine: further properties *)

(** X1.  A row that [compute_metrics] returns has exactly the thirteen
    columns of the result table, the six filter columns among them, and
    carries the ticker and the price it was given. *)
Theorem computed_row_columns (ticker : string) (info : yf_info)
    (price : option float) (g a : float) (r : row) :
  compute_metrics ticker info price g a = Ok r ->
  dom r = row_columns
  /\ Forall (fun c => c ∈ dom r) filter_columns
  /\ r !! "Ticker" = Some (PStr ticker)
  /\ r !! "Price (USD)" = Some (of_option price).
Proof. apply compute_metrics_columns. Qed.

(** The scenario "CCC". *)
Lemma computed_row_columns_witness :
  compute_metrics "CCC" info_fcf_plain None 5 4 = Ok row_ccc
  /\ dom row_ccc = row_columns
  /\ row_ccc !! "Ticker" = Some (PStr "CCC").
Proof.
  assert (Hccc : compute_metrics "CCC" info_fcf_plain None 5 4 = Ok row_ccc).
  { returned_row. }
  split; [exact Hccc | ].
  destruct (computed_row_columns "CCC" info_fcf_plain None 5 4 row_ccc Hccc)
    as (Hdom & _ & Hticker & _).
  split; [exact Hdom | exact Hticker].
Defined.

(** X2.  In a row that [compute_metrics] returns, the price and the five
    cells it derives (debt-to-equity, dividend yield, FCF yield, Graham
    value, margin of safety) are floats or [None]: only the P/E and the P/B,
    which are copied as fetched, can be text or an int. *)
Theorem computed_row_derived_cells (ticker : string) (info : yf_info)
    (price : option float) (g a : float) (r : row) :
  compute_metrics ticker info price g a = Ok r ->
  Forall (fun c => none_or_float (cell c r) = true)
    ["Price (USD)"; "Debt/Equity"; "Dividend Yield (%)"; "FCF Yield (%)";
     "Graham Value (est. USD)"; "Margin of Safety (%)"].
Proof. apply compute_metrics_derived_cells. Qed.

(** The row of a free cash flow that is text and an int market cap. *)
Lemma computed_row_derived_cells_witness :
  compute_metrics "BBB" info_fcf_text None 5 4 = Ok row_fcf_text
  /\ cell "FreeCashflow (USD)" row_fcf_text = PStr "N/A"
  /\ cell "MarketCap (USD)" row_fcf_text = PInt 5
  /\ Forall (fun c => none_or_float (cell c row_fcf_text) = true)
       ["Price (USD)"; "Debt/Equity"; "Dividend Yield (%)"; "FCF Yield (%)";
        "Graham Value (est. USD)"; "Margin of Safety (%)"].
Proof.
  assert (Hr : compute_metrics "BBB" info_fcf_text None 5 4
               = Ok row_fcf_text).
  { returned_row. }
  split; [exact Hr | ]. do 2 (split; [vm_compute; reflexivity | ]).
  exact (computed_row_derived_cells "BBB" info_fcf_text None 5 4
           row_fcf_text Hr).
Defined.

(** X3.  The dividend-yield cell: with no dividend yield fetched,
    [compute_metrics] returns a row whose dividend yield is [None]; with a
    dividend yield that [float] converts to [x], it returns a row whose
    dividend yield is [x * 100]. *)
Theorem dividend_yield_is_hundredfold (ticker : string) (info : yf_info)
    (price : option float) (g a : float) :
  let dy := dict_get (default ∅ (get_raw info)) "dividendYield" in
  (dy = PNone ->
   exists r,
     compute_metrics ticker info price g a = Ok r
     /\ r !! "Dividend Yield (%)" = Some PNone)
  /\ (forall x,
        dy <> PNone -> py_float dy = Ok x ->
        exists r,
          compute_metrics ticker info price g a = Ok r
          /\ r !! "Dividend Yield (%)" = Some (PFloat (x * 100)%float)).
Proof.
  intros dy. split.
  - intros Hdy. apply dividend_yield_returns.
    unfold dividend_yield_pct. fold dy. by rewrite Hdy.
  - intros x Hne Hx. apply dividend_yield_returns.
    unfold dividend_yield_pct. fold dy. rewrite Hx.
    by destruct dy.
Qed.

(** X4.  The Graham value: with earnings per share that are a number [e],
    a discount rate above zero whose hundredth is above zero too, the cell
    is [e * (8.5 + 2 * (g / 100)) * 4.4 / (a / 100)], in double arithmetic
    and in this order of operations. *)
Theorem graham_value_formula (ticker : string) (info : yf_info)
    (price : option float) (g a e : float) (r : row) :
  compute_metrics ticker info price g a = Ok r ->
  let eps := dict_get (default ∅ (get_raw info)) "trailingEps" in
  numeric_or_unknown eps = true ->
  py_float eps = Ok e ->
  (0 <? a)%float = true ->
  (0 <? a / 100)%float = true ->
  r !! "Graham Value (est. USD)"
  = Some (PFloat (e * (8.5 + 2 * (g / 100)) * 4.4 / (a / 100))%float).
Proof.
  intros Hr eps Hnum He Ha Hd.
  destruct (compute_metrics_fields _ _ _ _ _ _ Hr) as (_ & _ & _ & -> & _).
  fold eps. f_equal. unfold graham_block.
  assert (is_None eps = false) as -> by (by destruct eps).
  unfold float_truthy at 1. rewrite (pos_not_zero a Ha), Ha.
  cbn [negb andb]. rewrite (mul_float_number eps e _ Hnum He).
  cbn [mbind result_bind]. unfold float_div.
  rewrite (pos_not_zero _ Hd). cbn [mbind result_bind].
  destruct price as [p | ]; [ | reflexivity].
  destruct (float_truthy p && float_truthy _) eqn:Hc; [ | reflexivity].
  apply andb_true_iff in Hc as [_ Hgv]. unfold float_truthy in Hgv.
  apply negb_true_iff in Hgv. rewrite Hgv. reflexivity.
Qed.

(** The scenario "AAA" with earnings per share 5.0. *)
Lemma graham_value_formula_witness :
  compute_metrics "AAA" info_aaa_float (Some 100%float) 5 4 = Ok row_aaa
  /\ row_aaa !! "Graham Value (est. USD)"
     = Some (PFloat (5 * (8.5 + 2 * (5 / 100)) * 4.4 / (4 / 100))%float).
Proof.
  assert (Hr : compute_metrics "AAA" info_aaa_float (Some 100%float) 5 4
               = Ok row_aaa).
  { returned_row. }
  split; [exact Hr | ].
  apply (graham_value_formula "AAA" info_aaa_float (Some 100%float) 5 4 5
           row_aaa Hr); reflexivity.
Defined.

(** X5.  A margin of safety is present only together with a Graham value
    and a price that are both not zero, and it is then
    [(graham - price) / graham * 100]. *)
Theorem margin_of_safety_needs_value_and_price (ticker : string)
    (info : yf_info) (price : option float) (g a : float) (r : row)
    (mos : pyval) :
  compute_metrics ticker info price g a = Ok r ->
  r !! "Margin of Safety (%)" = Some mos ->
  mos <> PNone ->
  exists gv p,
    r !! "Graham Value (est. USD)" = Some (PFloat gv)
    /\ price = Some p
    /\ (gv =? 0)%float = false
    /\ (p =? 0)%float = false
    /\ mos = PFloat ((gv - p) / gv * 100)%float.
Proof.
  intros Hr Hmos Hne.
  destruct (compute_metrics_fields _ _ _ _ _ _ Hr) as (_ & _ & _ & Hg & Hm).
  rewrite Hm in Hmos. injection Hmos as <-. rewrite Hg.
  destruct (graham_block_cases
              (dict_get (default ∅ (get_raw info)) "trailingEps") price g a)
    as [E | [[gv E] | (gv & p & E & -> & Hp & Hgv)]];
    rewrite E in *; [done | done | ].
  exists gv, p. unfold float_truthy in *.
  apply negb_true_iff in Hp, Hgv. done.
Qed.

(** The scenario "AAA": a Graham value of 4730 and a price of 100. *)
Lemma margin_of_safety_needs_value_and_price_witness :
  compute_metrics "AAA" info_aaa_float (Some 100%float) 5 4 = Ok row_aaa
  /\ row_aaa !! "Margin of Safety (%)"
     = Some (PFloat ((4730 - 100) / 4730 * 100)%float)
  /\ exists gv p,
       row_aaa !! "Graham Value (est. USD)" = Some (PFloat gv)
       /\ Some 100%float = Some p
       /\ (gv =? 0)%float = false
       /\ (p =? 0)%float = false
       /\ PFloat ((4730 - 100) / 4730 * 100)%float
          = PFloat ((gv - p) / gv * 100)%float.
Proof.
  assert (Hr : compute_metrics "AAA" info_aaa_float (Some 100%float) 5 4
               = Ok row_aaa).
  { returned_row. }
  assert (Hmos : row_aaa !! "Margin of Safety (%)"
                 = Some (PFloat ((4730 - 100) / 4730 * 100)%float))
    by (vm_compute; reflexivity).
  split; [exact Hr | ]. split; [exact Hmos | ].
  apply (margin_of_safety_needs_value_and_price "AAA" info_aaa_float
           (Some 100%float) 5 4 row_aaa _ Hr Hmos).
  discriminate.
Defined.

(** X6.  When reading the attributes of a ticker raises, [fetch_yf_info]
    still returns: the attributes are empty and the price is the last close
    if the history could be read.  [compute_metrics] then returns a row that
    holds the ticker and that price and is unknown everywhere else. *)
Theorem failed_info_gives_unknown_row (ticker : string) (e : exn)
    (closes : result (list float)) (g a : float) :
  let info := fetch_yf_info_body (Raise e) closes in
  get_price info = match closes with Ok hist => last hist | Raise _ => None end
  /\ exists r,
       compute_metrics ticker info (get_price info) g a = Ok r
       /\ r !! "Ticker" = Some (PStr ticker)
       /\ r !! "Price (USD)" = Some (of_option (get_price info))
       /\ forall c, c ∈ row_columns -> c <> "Ticker" -> c <> "Price (USD)" ->
                    r !! c = Some PNone.
Proof.
  cbn zeta. split; [by destruct closes | ].
  eexists. split; [reflexivity | ]. split; [reflexivity | ].
  split; [reflexivity | ].
  intros c Hc Ht Hp. unfold row_columns in Hc.
  apply elem_of_list_to_set in Hc.
  repeat (apply elem_of_cons in Hc as [-> | Hc]; [try done; reflexivity | ]).
  by apply elem_of_nil in Hc.
Qed.

(** ** The filter: lemmas *)

Section FilterLemmas.

Lemma cell_le_fill (object : bool) (v : pyval) (bound : float) :
  numeric_or_unknown v = true ->
  cell_le object (fill infinity v) bound = Ok (clause_le object v bound).
Proof.
  destruct v as [ | b | n | x | s]; try discriminate; intros _;
    try reflexivity.
  unfold fill, clause_le, isna. destruct (is_nan x); reflexivity.
Qed.

Lemma cell_ge_fill (object : bool) (v : pyval) (bound : float) :
  numeric_or_unknown v = true ->
  cell_ge object (fill neg_infinity v) bound = Ok (clause_ge object v bound).
Proof.
  destruct v as [ | b | n | x | s]; try discriminate; intros _;
    try reflexivity.
  unfold fill, clause_ge, isna. destruct (is_nan x); reflexivity.
Qed.

(** Only text makes a comparison raise. *)
Lemma cell_le_Ok (object : bool) (value : float) (v : pyval) (bound : float)
    (b : bool) :
  cell_le object (fill value v) bound = Ok b -> numeric_or_unknown v = true.
Proof. by destruct v. Qed.

Lemma cell_ge_Ok (object : bool) (value : float) (v : pyval) (bound : float)
    (b : bool) :
  cell_ge object (fill value v) bound = Ok b -> numeric_or_unknown v = true.
Proof. by destruct v. Qed.

(** A missing cell is compared as the fill value. *)
Lemma fill_isna (value : float) (v : pyval) :
  isna v = true -> fill value v = PFloat value.
Proof. unfold fill. intros ->. reflexivity. Qed.

(** An unknown field meets a minimum exactly when the minimum is [-inf]. *)
Lemma clause_ge_isna (object : bool) (v : pyval) (bound : float) :
  isna v = true ->
  clause_ge object v bound = true <-> bound = neg_infinity.
Proof. unfold clause_ge. intros ->. apply leb_neg_infinity. Qed.

Lemma mapM_fmap_Ok {A B C : Type} (f : B -> result C) (h : A -> B)
    (g : A -> C) (l : list A) :
  Forall (fun a => f (h a) = Ok (g a)) l -> mapM f (h <$> l) = Ok (g <$> l).
Proof.
  induction 1 as [ | a l Ha _ IH]; [reflexivity | ].
  cbn [mapM fmap list_fmap]. rewrite Ha. cbn [mbind result_bind].
  rewrite IH. reflexivity.
Qed.

(** When a comparison of a whole series succeeds, each element's did. *)
Lemma mapM_Ok_Forall {A B : Type} (f : A -> result B) (l : list A)
    (l' : list B) :
  mapM f l = Ok l' -> Forall (fun a => exists b, f a = Ok b) l.
Proof.
  revert l'. induction l as [ | x l IH]; intros l' Hm; [constructor | ].
  cbn [mapM] in Hm. destruct (f x) as [y | e] eqn:Hx; [ | done].
  cbn [mbind result_bind] in Hm.
  destruct (mapM f l) as [k | e] eqn:Hl; [ | done].
  constructor; [by exists y | by apply (IH k)].
Qed.

Lemma filter_snd {A B : Type} (f : B -> bool) (l : list (A * B)) :
  (List.filter (fun p => f p.2) l).*2 = List.filter f l.*2.
Proof.
  induction l as [ | [a b] l IH]; [reflexivity | ].
  cbn. destruct (f b); cbn; by rewrite IH.
Qed.

Lemma filter_sublist {A : Type} (f : A -> bool) (l : list A) :
  sublist (List.filter f l) l.
Proof.
  induction l as [ | a l IH]; [constructor | ].
  cbn. destruct (f a); by constructor.
Qed.

Lemma filter_all {A : Type} (f : A -> bool) (l : list A) :
  List.filter f l = l <-> Forall (fun a => f a = true) l.
Proof.
  induction l as [ | a l IH]; [by split; [constructor | ] | ].
  cbn. destruct (f a) eqn:Ha.
  - rewrite Forall_cons. split.
    + intros [= H]. split; [done | by apply IH].
    + intros [_ H]. f_equal. by apply IH.
  - split.
    + intros H. exfalso.
      pose proof (sublist_length _ _ (filter_sublist f l)) as Hlen.
      rewrite H in Hlen. cbn in Hlen. lia.
    + intros H. apply Forall_cons in H as [H _]. congruence.
Qed.

Lemma elem_of_List_filter {A : Type} (f : A -> bool) (l : list A) (a : A) :
  a ∈ List.filter f l <-> a ∈ l /\ f a = true.
Proof. rewrite !list_elem_of_In. apply List.filter_In. Qed.

(** *** Labels *)

Lemma elem_of_index (items : list (label * row)) (l : label) :
  l ∈ items.*1 -> exists r, (l, r) ∈ items.
Proof.
  intros ([l' r] & -> & Hin)%list_elem_of_fmap. by exists r.
Qed.

Lemma default_index_NoDup (df : DataFrame) :
  default_index df -> NoDup (df_index df).
Proof. intros ->. apply NoDup_seq. Qed.

Lemma default_index_lt (df : DataFrame) (l : label) (r : row) :
  default_index df -> (l, r) ∈ df_items df ->
  (l < length (df_items df))%nat.
Proof.
  intros Hdf Hin.
  assert (Hl : l ∈ df_index df).
  { unfold df_index. apply list_elem_of_fmap. by exists (l, r). }
  rewrite Hdf in Hl. apply elem_of_seq in Hl. lia.
Qed.

Lemma pd_DataFrame_index (infer : list pyval -> bool) (rows : list row) :
  default_index (pd_DataFrame infer rows).
Proof.
  unfold default_index, df_index. cbn [df_items pd_DataFrame].
  rewrite length_zip_with, length_seq, Nat.min_id.
  apply fst_zip. by rewrite length_seq.
Qed.

Lemma pd_DataFrame_rows (infer : list pyval -> bool) (rows : list row) :
  df_rows (pd_DataFrame infer rows) = rows.
Proof. unfold df_rows. cbn. apply snd_zip. by rewrite length_seq. Qed.

Lemma series_of_lookup (f : row -> bool) (items : list (label * row))
    (l : label) (r : row) :
  NoDup items.*1 -> (l, r) ∈ items -> series_of f items !! l = Some (f r).
Proof.
  intros Hnd Hin. unfold series_of. apply elem_of_list_to_map_1.
  - rewrite <- list_fmap_compose. exact Hnd.
  - by apply (list_elem_of_fmap_2 (fun p => (p.1, f p.2)) _ (l, r)).
Qed.

Lemma series_and_lookup (m : mask_series) (f : row -> bool)
    (items : list (label * row)) (l : label) (r : row) :
  NoDup items.*1 -> (l, r) ∈ items ->
  series_and m (series_of f items) !! l
  = Some (default false (m !! l) && f r).
Proof.
  intros Hnd Hin. unfold series_and.
  rewrite lookup_merge, (series_of_lookup f items l r) by done.
  destruct (m !! l); reflexivity.
Qed.

(** The mask the block starts from is true below [n] and has no other
    label. *)
Lemma pd_Series_true_lookup (n : nat) (l : label) :
  default false (pd_Series (replicate n true) !! l) = (l <? n)%nat.
Proof.
  unfold pd_Series. rewrite lookup_map_seq_0.
  destruct (decide (l < n)%nat) as [Hl | Hl].
  - rewrite lookup_replicate_2 by done. symmetry. by apply Nat.ltb_lt.
  - rewrite (proj1 (lookup_replicate_None n true l)) by lia.
    symmetry. apply Nat.ltb_ge. lia.
Qed.

(** *** The steps of the mask block *)

Lemma metric_table_column (df : DataFrame) (c : string) :
  metric_table df -> c ∈ filter_columns ->
  c ∈ df_columns df
  /\ Forall (fun p => numeric_or_unknown (cell c p.2) = true) (df_items df).
Proof.
  intros [Hcols Hrows] Hc. rewrite Forall_forall in Hcols.
  split; [by apply Hcols | ].
  unfold df_rows in Hrows. rewrite Forall_fmap in Hrows.
  eapply Forall_impl; [exact Hrows | ].
  intros p Hp. cbn in Hp. unfold metric_row in Hp.
  rewrite Forall_forall in Hp. by apply Hp.
Qed.

Lemma mask_le_metric (df : DataFrame) (c : string) (bound : float)
    (m : mask_series) :
  metric_table df -> c ∈ filter_columns ->
  mask_le df c (Some bound) m
  = Ok (series_and m
          (series_of (fun r => clause_le (df_object df c) (cell c r) bound)
             (df_items df))).
Proof.
  intros Hdf Hc. destruct (metric_table_column df c Hdf Hc) as [Hcol Hcells].
  unfold mask_le, df_col. rewrite decide_True by done.
  cbn [mbind result_bind]. unfold series_le, fillna.
  rewrite <- list_fmap_compose.
  rewrite (mapM_fmap_Ok _ _
             (fun p => (p.1, clause_le (df_object df c) (cell c p.2) bound))).
  - reflexivity.
  - eapply Forall_impl; [exact Hcells | ].
    intros [l r] Hr. cbn in *. by rewrite cell_le_fill.
Qed.

Lemma mask_ge_metric (df : DataFrame) (c : string) (bound : float)
    (m : mask_series) :
  metric_table df -> c ∈ filter_columns ->
  mask_ge df c (Some bound) m
  = Ok (series_and m
          (series_of (fun r => clause_ge (df_object df c) (cell c r) bound)
             (df_items df))).
Proof.
  intros Hdf Hc. destruct (metric_table_column df c Hdf Hc) as [Hcol Hcells].
  unfold mask_ge, df_col. rewrite decide_True by done.
  cbn [mbind result_bind]. unfold series_ge, fillna.
  rewrite <- list_fmap_compose.
  rewrite (mapM_fmap_Ok _ _
             (fun p => (p.1, clause_ge (df_object df c) (cell c p.2) bound))).
  - reflexivity.
  - eapply Forall_impl; [exact Hcells | ].
    intros [l r] Hr. cbn in *. by rewrite cell_ge_fill.
Qed.

(** A step that returns read a column the table has, and found no text in
    it. *)
Lemma mask_le_Ok (df : DataFrame) (c : string) (bound : float)
    (m m' : mask_series) :
  mask_le df c (Some bound) m = Ok m' ->
  c ∈ df_columns df
  /\ Forall (fun r => numeric_or_unknown (cell c r) = true) (df_rows df).
Proof.
  unfold mask_le, df_col. destruct (decide _) as [Hc | ]; [ | done].
  cbn [mbind result_bind]. unfold series_le.
  destruct (mapM _ _) as [k | e] eqn:Hk; [ | done]. intros _.
  split; [done | ]. apply mapM_Ok_Forall in Hk.
  unfold fillna, df_rows in *. rewrite <- list_fmap_compose in Hk.
  rewrite !Forall_fmap in *. eapply Forall_impl; [exact Hk | ].
  intros [l r] [b Hb]. cbn in *.
  destruct (cell_le _ _ _) as [b' | ] eqn:Hle; [ | done].
  by eapply cell_le_Ok.
Qed.

Lemma mask_ge_Ok (df : DataFrame) (c : string) (bound : float)
    (m m' : mask_series) :
  mask_ge df c (Some bound) m = Ok m' ->
  c ∈ df_columns df
  /\ Forall (fun r => numeric_or_unknown (cell c r) = true) (df_rows df).
Proof.
  unfold mask_ge, df_col. destruct (decide _) as [Hc | ]; [ | done].
  cbn [mbind result_bind]. unfold series_ge.
  destruct (mapM _ _) as [k | e] eqn:Hk; [ | done]. intros _.
  split; [done | ]. apply mapM_Ok_Forall in Hk.
  unfold fillna, df_rows in *. rewrite <- list_fmap_compose in Hk.
  rewrite !Forall_fmap in *. eapply Forall_impl; [exact Hk | ].
  intros [l r] [b Hb]. cbn in *.
  destruct (cell_ge _ _ _) as [b' | ] eqn:Hge; [ | done].
  by eapply cell_ge_Ok.
Qed.


Lemma mask_ge_KeyError (df : DataFrame) (c : string) (bound : float)
    (m : mask_series) :
  c ∉ df_columns df -> mask_ge df c (Some bound) m = Raise KeyError.
Proof. intros Hc. unfold mask_ge, df_col. by rewrite decide_False. Qed.

(** *** The mask block *)

(** On a table of metric rows with distinct labels, the mask block keeps the
    rows that pass all six clauses and whose label is below the number of
    rows. *)
Lemma apply_filters_metric_table (cfg : settings) (df : DataFrame) :
  metric_table df -> NoDup (df_index df) ->
  apply_filters cfg df
  = Ok {| df_columns := df_columns df;
          df_object := df_object df;
          df_items :=
            List.filter
              (fun p => (p.1 <? length (df_items df))%nat
                        && passes (df_object df) cfg p.2)
              (df_items df) |}.
Proof.
  intros Hdf Hnd. unfold apply_filters.
  do 3 (rewrite mask_le_metric by (auto; set_solver);
        cbn [mbind result_bind]).
  do 3 (rewrite mask_ge_metric by (auto; set_solver);
        cbn [mbind result_bind]).
  match goal with |- df_getitem df ?m = _ => set (mask := m) end.
  assert (Hmask : forall l r, (l, r) ∈ df_items df ->
            mask !! l
            = Some ((l <? length (df_items df))%nat
                    && passes (df_object df) cfg r)).
  { intros l r Hin. unfold mask.
    do 6 (rewrite (series_and_lookup _ _ _ l r) by done; cbn [default]).
    rewrite pd_Series_true_lookup. unfold passes.
    by rewrite !andb_assoc. }
  unfold df_getitem. rewrite decide_True.
  - do 2 f_equal. apply List.filter_ext_in. intros [l r] Hin.
    apply list_elem_of_In in Hin. cbn. by rewrite (Hmask l r).
  - apply Forall_forall. intros l Hl.
    destruct (elem_of_index _ _ Hl) as [r Hr]. by rewrite (Hmask l r).
Qed.

(** When the mask block returns, the table has the six columns and no text
    in them. *)
Lemma apply_filters_Ok_metric (cfg : settings) (df out : DataFrame) :
  apply_filters cfg df = Ok out -> metric_table df.
Proof.
  unfold apply_filters. intros H.
  destruct (mask_le df "P/E" _ _) as [m1 | ] eqn:H1; [ | done].
  cbn [mbind result_bind] in H.
  destruct (mask_le df "P/B" _ _) as [m2 | ] eqn:H2; [ | done].
  cbn [mbind result_bind] in H.
  destruct (mask_le df "Debt/Equity" _ _) as [m3 | ] eqn:H3; [ | done].
  cbn [mbind result_bind] in H.
  destruct (mask_ge df "Dividend Yield (%)" _ _) as [m4 | ] eqn:H4; [ | done].
  cbn [mbind result_bind] in H.
  destruct (mask_ge df "FCF Yield (%)" _ _) as [m5 | ] eqn:H5; [ | done].
  cbn [mbind result_bind] in H.
  destruct (mask_ge df "Margin of Safety (%)" _ _) as [m6 | ] eqn:H6;
    [ | done].
  apply mask_le_Ok in H1 as [C1 R1]. apply mask_le_Ok in H2 as [C2 R2].
  apply mask_le_Ok in H3 as [C3 R3]. apply mask_ge_Ok in H4 as [C4 R4].
  apply mask_ge_Ok in H5 as [C5 R5]. apply mask_ge_Ok in H6 as [C6 R6].
  split; [by repeat constructor | ].
  rewrite Forall_forall in *. intros r Hr. unfold metric_row, filter_columns.
  repeat constructor; auto.
Qed.

(** A table of metric rows that lacks one of the six columns makes the mask
    block raise [KeyError]. *)
Lemma apply_filters_KeyError (cfg : settings) (df : DataFrame) :
  Forall metric_row (df_rows df) ->
  ~ Forall (fun c => c ∈ df_columns df) filter_columns ->
  apply_filters cfg df = Raise KeyError.
Proof.
  intros Hrows Hcols.
  destruct (apply_filters cfg df) as [out | e] eqn:H.
  { apply apply_filters_Ok_metric in H as [H _]. done. }
  f_equal. revert H. unfold apply_filters.
  assert (Hle : forall c bound m m',
            c ∈ filter_columns -> mask_le df c (Some bound) m = Raise m' ->
            m' = KeyError).
  { intros c bound m m' Hc. unfold mask_le, df_col.
    destruct (decide _) as [Hin | ]; [ | by intros [= <-] ].
    cbn [mbind result_bind]. unfold series_le, fillna.
    rewrite <- list_fmap_compose.
    rewrite (mapM_fmap_Ok _ _
               (fun p => (p.1, clause_le (df_object df c) (cell c p.2) bound)));
      [done | ].
    unfold df_rows in Hrows. rewrite Forall_fmap in Hrows.
    eapply Forall_impl; [exact Hrows | ].
    intros [l r] Hr. cbn in *. unfold metric_row in Hr.
    rewrite Forall_forall in Hr. by rewrite cell_le_fill by auto. }
  assert (Hge : forall c bound m m',
            c ∈ filter_columns -> mask_ge df c (Some bound) m = Raise m' ->
            m' = KeyError).
  { intros c bound m m' Hc. unfold mask_ge, df_col.
    destruct (decide _) as [Hin | ]; [ | by intros [= <-] ].
    cbn [mbind result_bind]. unfold series_ge, fillna.
    rewrite <- list_fmap_compose.
    rewrite (mapM_fmap_Ok _ _
               (fun p => (p.1, clause_ge (df_object df c) (cell c p.2) bound)));
      [done | ].
    unfold df_rows in Hrows. rewrite Forall_fmap in Hrows.
    eapply Forall_impl; [exact Hrows | ].
    intros [l r] Hr. cbn in *. unfold metric_row in Hr.
    rewrite Forall_forall in Hr. by rewrite cell_ge_fill by auto. }
  destruct (mask_le df "P/E" _ _) as [m1 | e1] eqn:H1;
    [ | intros [= <-]; eapply Hle; [ | exact H1]; set_solver].
  cbn [mbind result_bind].
  destruct (mask_le df "P/B" _ _) as [m2 | e2] eqn:H2;
    [ | intros [= <-]; eapply Hle; [ | exact H2]; set_solver].
  cbn [mbind result_bind].
  destruct (mask_le df "Debt/Equity" _ _) as [m3 | e3] eqn:H3;
    [ | intros [= <-]; eapply Hle; [ | exact H3]; set_solver].
  cbn [mbind result_bind].
  destruct (mask_ge df "Dividend Yield (%)" _ _) as [m4 | e4] eqn:H4;
    [ | intros [= <-]; eapply Hge; [ | exact H4]; set_solver].
  cbn [mbind result_bind].
  destruct (mask_ge df "FCF Yield (%)" _ _) as [m5 | e5] eqn:H5;
    [ | intros [= <-]; eapply Hge; [ | exact H5]; set_solver].
  cbn [mbind result_bind].
  destruct (mask_ge df "Margin of Safety (%)" _ _) as [m6 | e6] eqn:H6;
    [ | intros [= <-]; eapply Hge; [ | exact H6]; set_solver].
  cbn [mbind result_bind]. intros Hget. exfalso. apply Hcols.
  apply mask_le_Ok in H1 as [C1 _]. apply mask_le_Ok in H2 as [C2 _].
  apply mask_le_Ok in H3 as [C3 _]. apply mask_ge_Ok in H4 as [C4 _].
  apply mask_ge_Ok in H5 as [C5 _]. apply mask_ge_Ok in H6 as [C6 _].
  by repeat constructor.
Qed.

End FilterLemmas.

Section FilterTables.

Lemma filter_index_NoDup (f : label * row -> bool) (items : list (label * row)) :
  NoDup items.*1 -> NoDup (List.filter f items).*1.
Proof.
  induction items as [ | [l r] items IH]; [done | ].
  cbn. intros [Hl Hnd]%NoDup_cons. destruct (f (l, r)); [ | by apply IH].
  cbn. apply NoDup_cons. split; [ | by apply IH].
  intros ([l' r'] & -> & Hin)%list_elem_of_fmap. apply Hl.
  apply elem_of_List_filter in Hin as [Hin _].
  apply list_elem_of_fmap. by exists (l', r').
Qed.

Lemma metric_table_filter (df : DataFrame) (f : label * row -> bool) :
  metric_table df ->
  metric_table {| df_columns := df_columns df;
                  df_object := df_object df;
                  df_items := List.filter f (df_items df) |}.
Proof.
  intros [Hcols Hrows]. split; [exact Hcols | ].
  unfold df_rows in *. cbn [df_items]. rewrite Forall_fmap in *.
  rewrite Forall_forall in *. intros p Hp. apply Hrows.
  by apply elem_of_List_filter in Hp as [Hp _].
Qed.

(** The table [pd.DataFrame(rows)] has a column exactly when the column is a
    key of some row. *)
Lemma pd_DataFrame_columns (infer : list pyval -> bool) (rows : list row)
    (c : string) :
  c ∈ df_columns (pd_DataFrame infer rows)
  <-> Exists (fun r => is_Some (r !! c)) rows.
Proof.
  cbn [df_columns pd_DataFrame]. rewrite elem_of_union_list, Exists_exists.
  split.
  - intros (X & (r & -> & Hr)%list_elem_of_fmap & Hc).
    exists r. split; [done | by apply elem_of_dom].
  - intros (r & Hr & Hc). exists (dom r).
    split; [by apply list_elem_of_fmap_2 | by apply elem_of_dom].
Qed.

Lemma pd_DataFrame_metric (infer : list pyval -> bool) (rows : list row) :
  Forall metric_row rows -> has_filter_columns rows ->
  metric_table (pd_DataFrame infer rows).
Proof.
  intros Hrows Hcols. split; [ | by rewrite pd_DataFrame_rows].
  eapply Forall_impl; [exact Hcols | ].
  intros c Hc. by apply pd_DataFrame_columns.
Qed.

Lemma pd_DataFrame_items (infer : list pyval -> bool) (rows : list row)
    (i : nat) (r : row) :
  (i, r) ∈ df_items (pd_DataFrame infer rows) <-> rows !! i = Some r.
Proof.
  cbn [df_items pd_DataFrame]. rewrite list_elem_of_lookup. split.
  - intros (j & [Hj Hr]%lookup_zip_Some).
    apply lookup_seq in Hj as [-> _]. exact Hr.
  - intros Hr. exists i. apply lookup_zip_Some. split; [ | done].
    apply lookup_seq. split; [done | ]. by eapply lookup_lt_Some.
Qed.

(** The fallback row has none of the six columns. *)
Lemma fallback_row_lookup (tk c : string) :
  c ∈ filter_columns -> fallback_row tk !! c = None.
Proof.
  intros Hc. unfold fallback_row.
  rewrite !lookup_insert_ne, lookup_empty; [done | | ];
    intros <-; unfold filter_columns in Hc;
    repeat (apply elem_of_cons in Hc as [[=] | Hc]);
    by apply elem_of_nil in Hc.
Qed.

Lemma fallback_rows_metric (tickers : list string) :
  Forall metric_row (fallback_row <$> tickers).
Proof.
  apply Forall_fmap, Forall_forall. intros tk _. cbn.
  apply Forall_forall. intros c Hc. unfold cell.
  by rewrite fallback_row_lookup.
Qed.

Lemma fallback_rows_columns (tickers : list string) :
  ~ has_filter_columns (fallback_row <$> tickers).
Proof.
  intros [H _]%Forall_cons. apply Exists_exists in H as (r & Hr & [v Hv]).
  apply list_elem_of_fmap in Hr as (tk & -> & _).
  rewrite fallback_row_lookup in Hv; [done | set_solver].
Qed.

End FilterTables.

(** *** Outcomes of the mask block *)


Section MoreFilterLemmas.

(** An unknown field meets a maximum exactly when the maximum is [+inf]. *)
Lemma clause_le_isna (object : bool) (v : pyval) (bound : float) :
  isna v = true ->
  clause_le object v bound = true <-> bound = infinity.
Proof. unfold clause_le. intros ->. apply leb_infinity. Qed.

(** No field meets a threshold that is NaN. *)
Lemma clause_le_nan (object : bool) (v : pyval) (bound : float) :
  is_nan bound = true -> clause_le object v bound = false.
Proof.
  intros H. unfold clause_le, number_le, int_le_float.
  rewrite (Prim2SF_nan bound H).
  destruct (isna v); [by apply leb_nan_r | ].
  destruct v as [ | b | n | x | s]; try reflexivity;
    try (by apply leb_nan_r).
  destruct object; [reflexivity | by apply leb_nan_r].
Qed.

Lemma clause_ge_nan (object : bool) (v : pyval) (bound : float) :
  is_nan bound = true -> clause_ge object v bound = false.
Proof.
  intros H. unfold clause_ge, number_ge, float_le_int.
  rewrite (Prim2SF_nan bound H).
  destruct (isna v); [by apply leb_nan_l | ].
  destruct v as [ | b | n | x | s]; try reflexivity;
    try (by apply leb_nan_l).
  destruct object; [reflexivity | by apply leb_nan_l].
Qed.










(** *** Looser thresholds *)


Lemma clause_le_mono (object : bool) (v : pyval) (bound bound' : float) :
  clause_le object v bound = true -> (bound <=? bound')%float = true ->
  clause_le object v bound' = true.
Proof.
  unfold clause_le, number_le. intros Hv Hb.
  destruct (isna v); [by eapply leb_trans | ].
  destruct v as [ | b | n | x | s]; try done; try (by eapply leb_trans).
  destruct object; [by eapply int_le_float_mono | by eapply leb_trans].
Qed.

Lemma clause_ge_mono (object : bool) (v : pyval) (bound bound' : float) :
  clause_ge object v bound = true -> (bound' <=? bound)%float = true ->
  clause_ge object v bound' = true.
Proof.
  unfold clause_ge, number_ge. intros Hv Hb.
  destruct (isna v); [by eapply leb_trans | ].
  destruct v as [ | b | n | x | s]; try done; try (by eapply leb_trans).
  destruct object; [by eapply float_le_int_mono | by eapply leb_trans].
Qed.

Lemma passes_mono (object : string -> bool) (cfg cfg' : settings) (r : row) :
  loosened cfg cfg' -> passes object cfg r = true ->
  passes object cfg' r = true.
Proof.
  intros (H1 & H2 & H3 & H4 & H5 & H6). unfold passes.
  rewrite !andb_true_iff. intros (((((P1 & P2) & P3) & P4) & P5) & P6).
  repeat split;
    first [by eapply clause_le_mono | by eapply clause_ge_mono].
Qed.

Lemma filter_sublist_impl {A : Type} (f g : A -> bool) (l : list A) :
  (forall a, f a = true -> g a = true) ->
  sublist (List.filter f l) (List.filter g l).
Proof.
  intros Hfg. induction l as [ | a l IH]; [constructor | ].
  cbn. destruct (f a) eqn:Hf.
  - rewrite (Hfg a Hf). by constructor.
  - destruct (g a); [by constructor | exact IH].
Qed.


End MoreFilterLemmas.

(** ** The filter: properties *)

(** C2, as stated, fails.  The row [row_no_dividend] has an unknown dividend
    yield and the default minimum is zero, yet the row does not satisfy the
    clause: its mask entry is [False] and the filter drops it, although it
    passes once the minimum is [-inf]. *)
Lemma unknown_yield_fails_zero_minimum :
  isna (cell "Dividend Yield (%)" row_no_dividend) = true
  /\ div_yield_min default_settings = 0%float
  /\ (forall infer,
        mask_ge (pd_DataFrame infer [row_no_dividend]) "Dividend Yield (%)"
          (Some (div_yield_min default_settings)) (pd_Series [true])
        = Ok (pd_Series [false]))
  /\ (forall infer,
        exists out,
          apply_filters default_settings (pd_DataFrame infer [row_no_dividend])
          = Ok out
          /\ df_items out = [])
  /\ (forall infer,
        mask_ge (pd_DataFrame infer [row_no_dividend]) "Dividend Yield (%)"
          (Some neg_infinity) (pd_Series [true])
        = Ok (pd_Series [true])).
Proof.
  do 2 (split; [vm_compute; reflexivity | ]).
  split; [intros infer; vm_compute; reflexivity | ].
  split; [ | intros infer; vm_compute; reflexivity].
  intros infer. evaluate.
Qed.

(** C2, amended.  On every table with the default index on which the mask
    block returns, a row is in the output exactly when it satisfies the six
    clauses, and a row whose dividend yield is unknown satisfies the
    dividend-yield clause exactly when the minimum dividend yield is [-inf]
    itself: for every other minimum, zero and the negative ones included,
    the row is not in the output.  Likewise for an unknown FCF yield and the
    minimum FCF yield, and for an unknown margin of safety and the minimum
    margin of safety. *)
Theorem unknown_excluded_unless_minimum_neg_infinity (cfg : settings)
    (df out : DataFrame) (l : label) (r : row) :
  default_index df ->
  apply_filters cfg df = Ok out ->
  (l, r) ∈ df_items df ->
  ((l, r) ∈ df_items out <-> passes (df_object df) cfg r = true)
  /\ (isna (cell "Dividend Yield (%)" r) = true ->
      (clause_ge (df_object df "Dividend Yield (%)")
         (cell "Dividend Yield (%)" r) (div_yield_min cfg) = true
       <-> div_yield_min cfg = neg_infinity)
      /\ (div_yield_min cfg <> neg_infinity -> (l, r) ∉ df_items out))
  /\ (isna (cell "FCF Yield (%)" r) = true ->
      (clause_ge (df_object df "FCF Yield (%)")
         (cell "FCF Yield (%)" r) (fcf_yield_min cfg) = true
       <-> fcf_yield_min cfg = neg_infinity)
      /\ (fcf_yield_min cfg <> neg_infinity -> (l, r) ∉ df_items out))
  /\ (isna (cell "Margin of Safety (%)" r) = true ->
      (clause_ge (df_object df "Margin of Safety (%)")
         (cell "Margin of Safety (%)" r) (min_mos cfg) = true
       <-> min_mos cfg = neg_infinity)
      /\ (min_mos cfg <> neg_infinity -> (l, r) ∉ df_items out)).
Proof.
  intros Hidx Hout Hin.
  pose proof (apply_filters_Ok_metric _ _ _ Hout) as Hdf.
  rewrite (apply_filters_metric_table cfg df Hdf (default_index_NoDup _ Hidx))
    in Hout.
  injection Hout as <-. cbn [df_items].
  assert (Hmem : (l, r) ∈ List.filter
                   (fun p => (p.1 <? length (df_items df))%nat
                             && passes (df_object df) cfg p.2) (df_items df)
                 <-> passes (df_object df) cfg r = true).
  { rewrite elem_of_List_filter. cbn [fst snd].
    rewrite (proj2 (Nat.ltb_lt _ _) (default_index_lt df l r Hidx Hin)).
    cbn [andb]. tauto. }
  split; [exact Hmem | ].
  repeat split; try (by apply clause_ge_isna);
    intros Hmin [_ Hpass]%elem_of_List_filter; apply Hmin; cbn in Hpass;
    apply andb_true_iff in Hpass as [_ Hpass]; unfold passes in Hpass;
    repeat (apply andb_true_iff in Hpass as [Hpass ?]);
    by eapply clause_ge_isna.
Qed.

(** The first row of the sample table, under the default thresholds: its
    dividend yield is unknown and the minimum is zero. *)
Lemma unknown_excluded_unless_minimum_neg_infinity_witness :
  isna (cell "Dividend Yield (%)" row_no_dividend) = true
  /\ div_yield_min default_settings <> neg_infinity
  /\ forall infer,
       default_index (sample_table infer)
       /\ (0%nat, row_no_dividend) ∈ df_items (sample_table infer)
       /\ exists out,
            apply_filters default_settings (sample_table infer) = Ok out
            /\ (0%nat, row_no_dividend) ∉ df_items out.
Proof.
  split; [vm_compute; reflexivity | ]. split; [discriminate | ].
  intros infer.
  assert (Hidx : default_index (sample_table infer))
    by apply pd_DataFrame_index.
  assert (Hin : (0%nat, row_no_dividend) ∈ df_items (sample_table infer))
    by apply list_elem_of_here.
  split; [exact Hidx | ]. split; [exact Hin | ].
  assert (Hret : returned (apply_filters default_settings (sample_table infer))
                 = true) by (vm_compute; reflexivity).
  destruct (apply_filters default_settings (sample_table infer))
    as [out | e] eqn:Hout; [ | discriminate].
  exists out. split; [reflexivity | ].
  destruct (unknown_excluded_unless_minimum_neg_infinity default_settings
              (sample_table infer) out 0%nat row_no_dividend Hidx Hout Hin)
    as (_ & Hdy & _).
  apply Hdy; [vm_compute; reflexivity | discriminate].
Defined.

(** C3.  The mask block reads the six columns off the table, and the table
    has a column only when some row has it as a key.  The row the handler
    appends for a ticker whose fetch or computation raised has the keys
    "Ticker" and "Price (USD)" only: it is a row of unknowns, but a table of
    such rows alone lacks the six columns and the mask block raises
    [KeyError] on it, where the claim has it return the rows that pass (here
    none).  So does every table of metric rows that lacks one of the
    columns.  On the tables that have them the claim holds: the block
    returns the rows that pass all six clauses, in their input order, and a
    row of the input is in the output exactly when all six clauses hold for
    it (unknown as [+inf] for the three [<=] clauses, as [-inf] for the three
    [>=] clauses).  Every threshold takes part: none is [None]. *)
Theorem filter_raises_on_rows_of_unknowns_only :
  (forall infer cfg tk tickers,
     Forall metric_row (fallback_row <$> tk :: tickers)
     /\ apply_filters cfg (pd_DataFrame infer (fallback_row <$> tk :: tickers))
        = Raise KeyError)
  /\ (forall infer cfg rows,
        Forall metric_row rows -> ~ has_filter_columns rows ->
        apply_filters cfg (pd_DataFrame infer rows) = Raise KeyError)
  /\ (forall infer cfg rows,
        Forall metric_row rows -> has_filter_columns rows ->
        exists out,
          apply_filters cfg (pd_DataFrame infer rows) = Ok out
          /\ df_rows out
             = List.filter (passes (df_object (pd_DataFrame infer rows)) cfg)
                 rows
          /\ sublist (df_rows out) rows
          /\ forall i r,
               rows !! i = Some r ->
               let object := df_object (pd_DataFrame infer rows) in
               ((i, r) ∈ df_items out <->
                  clause_le (object "P/E") (cell "P/E" r) (pe_max cfg) = true
                  /\ clause_le (object "P/B") (cell "P/B" r) (pb_max cfg)
                     = true
                  /\ clause_le (object "Debt/Equity") (cell "Debt/Equity" r)
                       (de_max cfg) = true
                  /\ clause_ge (object "Dividend Yield (%)")
                       (cell "Dividend Yield (%)" r) (div_yield_min cfg)
                     = true
                  /\ clause_ge (object "FCF Yield (%)")
                       (cell "FCF Yield (%)" r) (fcf_yield_min cfg) = true
                  /\ clause_ge (object "Margin of Safety (%)")
                       (cell "Margin of Safety (%)" r) (min_mos cfg) = true))
  /\ (forall infer,
        exists out,
          apply_filters default_settings (sample_table infer) = Ok out
          /\ df_index out = [1; 3]%nat
          /\ cell "Ticker" <$> df_rows out = [PStr "GOOD"; PStr "GOOD"]).
Proof.
  assert (Hkey : forall infer cfg rows,
            Forall metric_row rows -> ~ has_filter_columns rows ->
            apply_filters cfg (pd_DataFrame infer rows) = Raise KeyError).
  { intros infer cfg rows Hrows Hcols. apply apply_filters_KeyError.
    - by rewrite pd_DataFrame_rows.
    - intros H. apply Hcols. eapply Forall_impl; [exact H | ].
      intros c Hc. by apply pd_DataFrame_columns in Hc. }
  split; [ | split; [exact Hkey | split] ].
  - intros infer cfg tk tickers. split; [apply fallback_rows_metric | ].
    apply Hkey; [apply fallback_rows_metric | apply fallback_rows_columns].
  - intros infer cfg rows Hrows Hcols.
    pose proof (pd_DataFrame_metric infer rows Hrows Hcols) as Hdf.
    pose proof (pd_DataFrame_index infer rows) as Hidx.
    set (df := pd_DataFrame infer rows) in *.
    eexists. split.
    { apply (apply_filters_metric_table cfg df Hdf).
      by apply default_index_NoDup. }
    cbn [df_items df_rows].
    assert (Hsame :
              List.filter
                (fun p => (p.1 <? length (df_items df))%nat
                          && passes (df_object df) cfg p.2) (df_items df)
              = List.filter (fun p => passes (df_object df) cfg p.2)
                  (df_items df)).
    { apply List.filter_ext_in. intros [l r] Hin.
      apply list_elem_of_In in Hin. cbn [fst snd].
      by rewrite (proj2 (Nat.ltb_lt _ _) (default_index_lt df l r Hidx Hin)). }
    unfold df_rows. cbn [df_items]. rewrite Hsame, filter_snd.
    fold (df_rows df). unfold df. rewrite pd_DataFrame_rows.
    split; [reflexivity | ]. split; [apply filter_sublist | ].
    intros i r Hr. cbn zeta. rewrite elem_of_List_filter.
    rewrite (pd_DataFrame_items infer rows i r). cbn [snd].
    unfold passes. rewrite !andb_true_iff. tauto.
  - intros infer. evaluate.
Qed.

(** C7, as stated, fails: the rows the mask block keeps keep their labels,
    and the block starts its mask from the labels [0 .. k-1] of a table of
    [k] rows.  Of the sample table the block keeps the rows labelled 1 and
    3, which meet every default threshold; run again on that output, it
    drops the row labelled 3. *)
Lemma filter_again_drops_row_by_label :
  (forall object, passes object default_settings row_good = true)
  /\ forall infer,
       exists out again,
         apply_filters default_settings (sample_table infer) = Ok out
         /\ df_index out = [1; 3]%nat
         /\ cell "Ticker" <$> df_rows out = [PStr "GOOD"; PStr "GOOD"]
         /\ apply_filters default_settings out = Ok again
         /\ df_index again = [1]%nat
         /\ again <> out.
Proof.
  split; [intros object; vm_compute; reflexivity | ].
  intros infer.
  assert (H : returns (apply_filters default_settings (sample_table infer))
                (fun out =>
                   df_index out = [1; 3]%nat
                   /\ cell "Ticker" <$> df_rows out = [PStr "GOOD"; PStr "GOOD"]
                   /\ returns (apply_filters default_settings out)
                        (fun again => df_index again = [1]%nat)))
    by (vm_compute; repeat split).
  apply returns_ex in H as (out & Hout & Hidx & Htk & H).
  apply returns_ex in H as (again & Hagain & Hidx').
  exists out, again.
  split; [exact Hout | ]. split; [exact Hidx | ]. split; [exact Htk | ].
  split; [exact Hagain | ]. split; [exact Hidx' | ].
  intros ->. rewrite Hidx in Hidx'. discriminate.
Qed.

(** C7, amended.  On every table with the default index on which the mask
    block returns, the block returns its output unchanged when run on that
    output with its rows labelled [0 .. k-1] again: as a function of the
    sequence of rows the filter is idempotent.  Run on the output as it is,
    the block returns and keeps the rows whose label is below the number of
    rows of the output; it returns the output unchanged exactly when every
    label of the output is. *)
Theorem filter_idempotent_on_relabelled_output (cfg : settings)
    (df out : DataFrame) :
  default_index df ->
  apply_filters cfg df = Ok out ->
  apply_filters cfg (reset_index out) = Ok (reset_index out)
  /\ exists again,
       apply_filters cfg out = Ok again
       /\ df_items again
          = List.filter (fun p => (p.1 <? length (df_items out))%nat)
              (df_items out)
       /\ (again = out
           <-> Forall (fun l => (l < length (df_items out))%nat)
                 (df_index out)).
Proof.
  intros Hidx Hout.
  pose proof (apply_filters_Ok_metric _ _ _ Hout) as Hdf.
  pose proof (default_index_NoDup _ Hidx) as Hnd.
  rewrite (apply_filters_metric_table cfg df Hdf Hnd) in Hout.
  injection Hout as <-.
  set (kept := fun p : label * row =>
                 (p.1 <? length (df_items df))%nat
                 && passes (df_object df) cfg p.2).
  set (out := {| df_columns := df_columns df; df_object := df_object df;
                 df_items := List.filter kept (df_items df) |}).
  assert (Hpass : forall p, p ∈ df_items out ->
                    passes (df_object df) cfg p.2 = true).
  { intros p [_ Hp]%elem_of_List_filter. by apply andb_true_iff in Hp as [_ Hp]. }
  assert (Hout_metric : metric_table out) by by apply metric_table_filter.
  assert (Hout_nd : NoDup (df_index out)) by by apply filter_index_NoDup.
  split.
  - assert (Hlen : length (df_items (reset_index out))
                   = length (df_items out)).
    { cbn [df_items reset_index]. unfold df_rows.
      by rewrite length_zip_with, length_seq, length_fmap, Nat.min_id. }
    assert (Hrows : df_rows (reset_index out) = df_rows out).
    { unfold df_rows at 1. cbn [df_items reset_index]. apply snd_zip.
      unfold df_rows. by rewrite length_seq, length_fmap. }
    rewrite apply_filters_metric_table.
    + assert (Hall :
                List.filter
                  (fun p => (p.1 <? length (df_items (reset_index out)))%nat
                            && passes (df_object (reset_index out)) cfg p.2)
                  (df_items (reset_index out))
                = df_items (reset_index out)).
      { apply filter_all, Forall_forall. intros [l r] Hin. cbn [fst snd].
        rewrite Hlen. apply andb_true_iff. split.
        * apply Nat.ltb_lt. cbn [df_items reset_index] in Hin.
          apply elem_of_zip_l, elem_of_seq in Hin. lia.
        * cbn [df_items reset_index] in Hin. apply elem_of_zip_r in Hin.
          apply list_elem_of_fmap in Hin as (p & -> & Hp). by apply Hpass. }
      rewrite Hall. reflexivity.
    + split; [apply Hout_metric | ]. rewrite Hrows. apply Hout_metric.
    + unfold df_index. cbn [df_items reset_index]. unfold df_rows.
      rewrite fst_zip by (by rewrite length_seq, length_fmap).
      apply NoDup_seq.
  - pose proof (apply_filters_metric_table cfg out Hout_metric Hout_nd)
      as Hagain.
    set (below := fun p : label * row =>
                    (p.1 <? length (df_items out))%nat) in *.
    assert (Hsame :
              List.filter
                (fun p => below p && passes (df_object out) cfg p.2)
                (df_items out)
              = List.filter below (df_items out)).
    { apply List.filter_ext_in. intros p Hp%list_elem_of_In.
      change (df_object out) with (df_object df).
      by rewrite (Hpass p Hp), andb_true_r. }
    change (apply_filters cfg out
            = Ok {| df_columns := df_columns out;
                    df_object := df_object out;
                    df_items :=
                      List.filter
                        (fun p => below p && passes (df_object out) cfg p.2)
                        (df_items out) |}) in Hagain.
    rewrite Hsame in Hagain. eexists. split; [exact Hagain | ].
    split; [reflexivity | ].
    unfold df_index. rewrite Forall_fmap. split.
    + intros Heq. pose proof (f_equal df_items Heq) as Hitems.
      change (List.filter below (df_items out) = df_items out) in Hitems.
      apply filter_all in Hitems. eapply Forall_impl; [exact Hitems | ].
      intros p Hp. by apply Nat.ltb_lt.
    + intros Hall.
      assert (Hitems : List.filter below (df_items out) = df_items out).
      { apply filter_all. eapply Forall_impl; [exact Hall | ].
        intros p Hp. by apply Nat.ltb_lt. }
      rewrite Hitems. reflexivity.
Qed.

(** The sample table under the default thresholds: the output has the
    labels 1 and 3, and relabelled 0 and 1 it is returned unchanged. *)
Lemma filter_idempotent_on_relabelled_output_witness :
  (forall object, passes object default_settings row_good = true)
  /\ forall infer,
       default_index (sample_table infer)
       /\ exists out,
            apply_filters default_settings (sample_table infer) = Ok out
            /\ df_index out = [1; 3]%nat
            /\ df_index (reset_index out) = [0; 1]%nat
            /\ apply_filters default_settings (reset_index out)
               = Ok (reset_index out).
Proof.
  split; [intros object; vm_compute; reflexivity | ].
  intros infer.
  assert (Hidx : default_index (sample_table infer))
    by apply pd_DataFrame_index.
  split; [exact Hidx | ].
  assert (H : returns (apply_filters default_settings (sample_table infer))
                (fun out =>
                   df_index out = [1; 3]%nat
                   /\ df_index (reset_index out) = [0; 1]%nat))
    by (vm_compute; repeat split).
  apply returns_ex in H as (out & Hout & Hlabels & Hrelabelled).
  exists out. split; [exact Hout | ]. split; [exact Hlabels | ].
  split; [exact Hrelabelled | ].
  apply (filter_idempotent_on_relabelled_output default_settings
           (sample_table infer) out Hidx Hout).
Defined.


(** ** The filter: further properties *)


(** X8.  An unknown cell of a [<=] column is replaced with [+inf]: on every
    table with the default index on which the mask block returns, a row whose
    P/E is unknown satisfies the P/E clause exactly when the maximum P/E is
    [+inf] itself, and is not in the output for any other maximum.  Likewise
    for P/B and Debt/Equity and their maxima. *)
Theorem unknown_excluded_unless_maximum_infinity (cfg : settings)
    (df out : DataFrame) (l : label) (r : row) :
  default_index df ->
  apply_filters cfg df = Ok out ->
  (l, r) ∈ df_items df ->
  (isna (cell "P/E" r) = true ->
   (clause_le (df_object df "P/E") (cell "P/E" r) (pe_max cfg) = true
    <-> pe_max cfg = infinity)
   /\ (pe_max cfg <> infinity -> (l, r) ∉ df_items out))
  /\ (isna (cell "P/B" r) = true ->
      (clause_le (df_object df "P/B") (cell "P/B" r) (pb_max cfg) = true
       <-> pb_max cfg = infinity)
      /\ (pb_max cfg <> infinity -> (l, r) ∉ df_items out))
  /\ (isna (cell "Debt/Equity" r) = true ->
      (clause_le (df_object df "Debt/Equity") (cell "Debt/Equity" r)
         (de_max cfg) = true
       <-> de_max cfg = infinity)
      /\ (de_max cfg <> infinity -> (l, r) ∉ df_items out)).
Proof.
  intros Hidx Hout Hin.
  pose proof (apply_filters_Ok_metric _ _ _ Hout) as Hdf.
  rewrite (apply_filters_metric_table cfg df Hdf (default_index_NoDup _ Hidx))
    in Hout.
  injection Hout as <-. cbn [df_items].
  repeat split; try (by apply clause_le_isna);
    intros Hmax [_ Hpass]%elem_of_List_filter; apply Hmax; cbn in Hpass;
    apply andb_true_iff in Hpass as [_ Hpass]; unfold passes in Hpass;
    repeat (apply andb_true_iff in Hpass as [Hpass ?]);
    by eapply clause_le_isna.
Qed.

(** The third row of the sample table, under the default thresholds: its P/E
    is unknown and the maximum is 15. *)
Lemma unknown_excluded_unless_maximum_infinity_witness :
  isna (cell "P/E" row_no_pe) = true
  /\ pe_max default_settings <> infinity
  /\ forall infer,
       default_index (sample_table infer)
       /\ (2%nat, row_no_pe) ∈ df_items (sample_table infer)
       /\ exists out,
            apply_filters default_settings (sample_table infer) = Ok out
            /\ (2%nat, row_no_pe) ∉ df_items out.
Proof.
  split; [vm_compute; reflexivity | ]. split; [discriminate | ].
  intros infer.
  assert (Hidx : default_index (sample_table infer))
    by apply pd_DataFrame_index.
  assert (Hin : (2%nat, row_no_pe) ∈ df_items (sample_table infer)).
  { apply pd_DataFrame_items. reflexivity. }
  split; [exact Hidx | ]. split; [exact Hin | ].
  assert (Hret : returned (apply_filters default_settings (sample_table infer))
                 = true) by (vm_compute; reflexivity).
  destruct (apply_filters default_settings (sample_table infer))
    as [out | e] eqn:Hout; [ | discriminate].
  exists out. split; [reflexivity | ].
  destruct (unknown_excluded_unless_maximum_infinity default_settings
              (sample_table infer) out 2%nat row_no_pe Hidx Hout Hin)
    as (Hpe & _).
  apply Hpe; [vm_compute; reflexivity | discriminate].
Defined.

(** X9.  A threshold that is NaN keeps no row: on every table with the default
    index on which the mask block returns, the output is empty as soon as one
    of the six thresholds is NaN. *)
Theorem nan_threshold_keeps_no_row (cfg : settings) (df out : DataFrame) :
  default_index df ->
  apply_filters cfg df = Ok out ->
  is_nan (pe_max cfg) || is_nan (pb_max cfg) || is_nan (de_max cfg)
  || is_nan (div_yield_min cfg) || is_nan (fcf_yield_min cfg)
  || is_nan (min_mos cfg) = true ->
  df_items out = [].
Proof.
  intros Hidx Hout Hnan.
  pose proof (apply_filters_Ok_metric _ _ _ Hout) as Hdf.
  rewrite (apply_filters_metric_table cfg df Hdf (default_index_NoDup _ Hidx))
    in Hout.
  injection Hout as <-. cbn [df_items].
  assert (Hpass : forall r, passes (df_object df) cfg r = false).
  { intros r. unfold passes.
    destruct (is_nan (pe_max cfg)) eqn:H1;
      [by rewrite (clause_le_nan _ _ _ H1) | ].
    destruct (is_nan (pb_max cfg)) eqn:H2;
      [by rewrite (clause_le_nan _ _ _ H2), andb_false_r | ].
    destruct (is_nan (de_max cfg)) eqn:H3;
      [by rewrite (clause_le_nan _ _ _ H3), andb_false_r | ].
    destruct (is_nan (div_yield_min cfg)) eqn:H4;
      [by rewrite (clause_ge_nan _ _ _ H4), andb_false_r | ].
    destruct (is_nan (fcf_yield_min cfg)) eqn:H5;
      [by rewrite (clause_ge_nan _ _ _ H5), andb_false_r | ].
    cbn in Hnan. by rewrite (clause_ge_nan _ _ _ Hnan), andb_false_r. }
  generalize (length (df_items df)). intros n.
  induction (df_items df) as [ | p items IH]; [reflexivity | ].
  cbn. by rewrite Hpass, andb_false_r.
Qed.

(** The sample table with the maximum P/B set to NaN. *)
Lemma nan_threshold_keeps_no_row_witness :
  is_nan (pb_max nan_pb_settings) = true
  /\ forall infer,
       default_index (sample_table infer)
       /\ exists out,
            apply_filters nan_pb_settings (sample_table infer) = Ok out
            /\ df_items out = [].
Proof.
  split; [reflexivity | ]. intros infer.
  assert (Hidx : default_index (sample_table infer))
    by apply pd_DataFrame_index.
  split; [exact Hidx | ].
  assert (Hret : returned (apply_filters nan_pb_settings (sample_table infer))
                 = true) by (vm_compute; reflexivity).
  destruct (apply_filters nan_pb_settings (sample_table infer))
    as [out | e] eqn:Hout; [ | discriminate].
  exists out. split; [reflexivity | ].
  apply (nan_threshold_keeps_no_row nan_pb_settings (sample_table infer) out
           Hidx Hout).
  reflexivity.
Defined.

(** X10.  Loosening the thresholds never drops a row: when no maximum is
    lowered and no minimum is raised, the mask block returns on the same
    tables, and on a table with the default index the rows it kept before are
    among the rows it keeps now, in the same order. *)
Theorem looser_thresholds_keep_more (cfg cfg' : settings)
    (df out : DataFrame) :
  default_index df ->
  loosened cfg cfg' ->
  apply_filters cfg df = Ok out ->
  exists out',
    apply_filters cfg' df = Ok out'
    /\ sublist (df_items out) (df_items out').
Proof.
  intros Hidx Hloose Hout.
  pose proof (apply_filters_Ok_metric _ _ _ Hout) as Hdf.
  pose proof (default_index_NoDup _ Hidx) as Hnd.
  rewrite (apply_filters_metric_table cfg df Hdf Hnd) in Hout.
  injection Hout as <-. eexists.
  split; [by apply apply_filters_metric_table | ].
  cbn [df_items]. apply filter_sublist_impl.
  intros [l r]. cbn [fst snd]. rewrite !andb_true_iff.
  intros [Hl Hp]. split; [done | by eapply passes_mono].
Qed.

(** The sample table: the default thresholds, then the same with no minimum
    dividend yield, which brings the first row back. *)
Lemma looser_thresholds_keep_more_witness :
  loosened default_settings any_dividend_settings
  /\ forall infer,
       default_index (sample_table infer)
       /\ exists out out',
            apply_filters default_settings (sample_table infer) = Ok out
            /\ apply_filters any_dividend_settings (sample_table infer)
               = Ok out'
            /\ df_index out = [1; 3]%nat
            /\ df_index out' = [0; 1; 3]%nat
            /\ sublist (df_items out) (df_items out').
Proof.
  assert (Hloose : loosened default_settings any_dividend_settings)
    by (by vm_compute).
  split; [exact Hloose | ]. intros infer.
  assert (Hidx : default_index (sample_table infer))
    by apply pd_DataFrame_index.
  split; [exact Hidx | ].
  assert (H : returns (apply_filters default_settings (sample_table infer))
                (fun out => df_index out = [1; 3]%nat))
    by (vm_compute; reflexivity).
  apply returns_ex in H as (out & Hout & Hlabels).
  destruct (looser_thresholds_keep_more default_settings
              any_dividend_settings (sample_table infer) out Hidx Hloose Hout)
    as (out' & Hout' & Hsub).
  exists out, out'. split; [exact Hout | ]. split; [exact Hout' | ].
  split; [exact Hlabels | ]. split; [ | exact Hsub].
  assert (H : returns
                (apply_filters any_dividend_settings (sample_table infer))
                (fun out => df_index out = [0; 1; 3]%nat))
    by (vm_compute; reflexivity).
  rewrite Hout' in H. exact H.
Defined.

(** ** The handler: properties *)

Section HandlerProperties.

Context {world : Type}.
Variable infer_objects : list pyval -> bool.
Variable fetch_yf_info : string -> world -> result yf_info * world.
Variable to_csv : DataFrame -> string.
Variable to_excel_bytes : DataFrame -> string.

(** Whether fetching and computing succeed or raise, the row appended for a
    ticker carries that ticker. *)
Lemma appended_row_ticker (cfg : settings) (tk : string)
    (fetched : result yf_info) :
  cell "Ticker"
    (try_except
       (info ← fetched;
        compute_metrics tk info (get_price info) (est_growth cfg)
          (aaa_rate cfg))
       (fallback_row tk))
  = PStr tk.
Proof.
  destruct fetched as [info | e]; [ | reflexivity].
  cbn [mbind result_bind].
  destruct (compute_metrics tk info _ _ _) as [r | e] eqn:Hr; [ | reflexivity].
  destruct (compute_metrics_fields _ _ _ _ _ _ Hr) as (Ht & _).
  cbn [try_except]. unfold cell. by rewrite Ht.
Qed.

(** The loop appends one row per ticker, in order, and shows one progress
    step per ticker. *)
Lemma fetch_rows_spec (cfg : settings) (total : nat) (tickers : list string) :
  forall (i : nat) (w : world),
    let out := fetch_rows fetch_yf_info cfg total i tickers w in
    cell "Ticker" <$> out.1.1 = PStr <$> tickers
    /\ length out.1.2 = length tickers
    /\ Forall (fun ev => exists k n, ev = st_progress k n) out.1.2.
Proof.
  induction tickers as [ | tk rest IH]; intros i w; [by repeat split | ].
  cbn [fetch_rows].
  destruct (fetch_yf_info tk w) as [fetched w1].
  specialize (IH (S i) w1). cbn zeta in IH.
  destruct (fetch_rows fetch_yf_info cfg total (S i) rest w1)
    as [[rows shown] w2].
  cbn in IH. destruct IH as (IH1 & IH2 & IH3). cbn. repeat split.
  - by rewrite appended_row_ticker, IH1.
  - by rewrite IH2.
  - constructor; [by eauto | exact IH3].
Qed.

(** C8.  A run reports the error exactly when the ticker list is empty.  It
    then shows nothing else: no table, no download, and nothing is fetched.
    With tickers, the loop runs to its end and the raw table holds one row
    per input ticker, in input order. *)
Theorem run_reports_error_iff_no_tickers (cfg : settings)
    (tickers : list string) (w : world) :
  let out :=
    screener infer_objects fetch_yf_info to_csv to_excel_bytes true cfg tickers
      w in
  (tickers = [] <-> exists msg, st_error msg ∈ out.1.1)
  /\ (tickers = [] ->
      out = ([st_error "Please enter at least one ticker on the left."],
             None, w))
  /\ (tickers <> [] ->
      exists rows progress rest,
        out.1.1
        = (st_progress 0 (length tickers) :: progress
           ++ [st_subheader "Raw Results";
               st_dataframe (pd_DataFrame infer_objects rows)]
           ++ rest)%list
        /\ length progress = length tickers
        /\ length rows = length tickers
        /\ cell "Ticker" <$> rows = PStr <$> tickers).
Proof.
  cbn zeta. unfold screener, on_run.
  destruct tickers as [ | tk rest].
  - split; [ | by split].
    split; [intros _ | done]. eexists. by left.
  - pose proof (fetch_rows_spec cfg (length (tk :: rest)) (tk :: rest) 0 w)
      as Hspec. cbn zeta in Hspec.
    destruct (fetch_rows fetch_yf_info cfg _ 0 (tk :: rest) w)
      as [[rows shown] w'].
    cbn [fst snd] in Hspec. destruct Hspec as (Hrows & Hlen & Hprog).
    assert (Hnoerr : forall msg, st_error msg ∉ shown).
    { intros msg Hin. rewrite Forall_forall in Hprog.
      destruct (Hprog _ Hin) as (k & n & [=]). }
    assert (Hrowlen : length rows = length (tk :: rest)).
    { rewrite <- (length_fmap (cell "Ticker")), Hrows. by rewrite length_fmap. }
    destruct (apply_filters cfg (pd_DataFrame infer_objects rows))
      as [df_filtered | e];
      cbn [fst snd].
    + split; [ | split; [done | ] ].
      * split; [done | ]. intros [msg Hin]. exfalso.
        apply elem_of_app in Hin as [Hin | Hin].
        { apply elem_of_cons in Hin as [[=] | Hin].
          apply elem_of_app in Hin as [Hin | Hin]; [by eapply Hnoerr | ].
          repeat (apply elem_of_cons in Hin as [[=] | Hin]).
          by apply elem_of_nil in Hin. }
        repeat (apply elem_of_cons in Hin as [[=] | Hin]).
        by apply elem_of_nil in Hin.
      * intros _. exists rows, shown. eexists. split.
        { rewrite <- app_comm_cons, <- app_assoc. reflexivity. }
        done.
    + split; [ | split; [done | ] ].
      * split; [done | ]. intros [msg Hin]. exfalso.
        apply elem_of_cons in Hin as [[=] | Hin].
        apply elem_of_app in Hin as [Hin | Hin]; [by eapply Hnoerr | ].
        repeat (apply elem_of_cons in Hin as [[=] | Hin]).
        by apply elem_of_nil in Hin.
      * intros _. exists rows, shown, []. split.
        { rewrite app_nil_r. reflexivity. }
        done.
Qed.

End HandlerProperties.

(** ** The handler: further properties *)


Section MoreHandlerProperties.

Context {world : Type}.
Variable infer_objects : list pyval -> bool.
Variable fetch_yf_info : string -> world -> result yf_info * world.
Variable to_csv : DataFrame -> string.
Variable to_excel_bytes : DataFrame -> string.


(** X11.  The loop calls the fetcher once per ticker, in input order, handing
    the state from one call to the next, and shows the progress steps [i+1 ..
    i+n]: computing a row touches neither. *)
Theorem loop_fetches_each_ticker_once_in_order (cfg : settings)
    (total : nat) (tickers : list string) (i : nat) (w : world) :
  let out := fetch_rows fetch_yf_info cfg total i tickers w in
  out.2 = foldl (fun w tk => (fetch_yf_info tk w).2) w tickers
  /\ out.1.2 = (fun k => st_progress k total) <$> seq (S i) (length tickers)
  /\ length out.1.1 = length tickers.
Proof.
  cbn zeta. revert i w.
  induction tickers as [ | tk rest IH]; intros i w; [done | ].
  cbn [fetch_rows foldl length seq fmap list_fmap].
  destruct (fetch_yf_info tk w) as [fetched w1] eqn:Hf.
  specialize (IH (S i) w1).
  destruct (fetch_rows fetch_yf_info cfg total (S i) rest w1)
    as [[rows shown] w2].
  cbn [fst snd] in *. destruct IH as (-> & -> & Hlen).
  split; [reflexivity | ]. split; [reflexivity | ]. cbn. by rewrite Hlen.
Qed.



End MoreHandlerProperties.



(** ** The ticker list: lemmas *)

Section ParseLemmas.

Ltac by_cases_on_char c :=
  destruct c as [[] [] [] [] [] [] [] []]; try reflexivity; try discriminate.

Lemma upper_char_idem (c : ascii) : upper_char (upper_char c) = upper_char c.
Proof. by_cases_on_char c. Qed.

Lemma upper_char_space (c : ascii) :
  str_is_space (upper_char c) = str_is_space c.
Proof. by_cases_on_char c. Qed.

Lemma upper_char_comma (c : ascii) : upper_char c = ","%char -> c = ","%char.
Proof. by_cases_on_char c. Qed.

Lemma upper_char_ascii (c : ascii) :
  Nat.ltb (nat_of_ascii (upper_char c)) 128 = Nat.ltb (nat_of_ascii c) 128.
Proof. by_cases_on_char c. Qed.

Lemma str_upper_idem (s : list ascii) : str_upper (str_upper s) = str_upper s.
Proof.
  unfold str_upper. rewrite map_map. apply map_ext. apply upper_char_idem.
Qed.

(** What [lstrip] removes is whitespace, and what it leaves does not start
    with whitespace. *)
Lemma str_lstrip_split (s : list ascii) :
  exists p, s = (p ++ str_lstrip s)%list
            /\ forallb str_is_space p = true.
Proof.
  induction s as [ | c s (p & Hp & Hsp)]; [by exists [] | ].
  cbn. destruct (str_is_space c) eqn:Hc.
  - exists (c :: p). cbn. rewrite Hc, Hsp. split; [by f_equal | done].
  - by exists [].
Qed.

Lemma str_lstrip_head (s : list ascii) (c : ascii) (s' : list ascii) :
  str_lstrip s = c :: s' -> str_is_space c = false.
Proof.
  induction s as [ | d s IH]; [done | ]. cbn.
  destruct (str_is_space d) eqn:Hd; [exact IH | ]. by intros [= <- _].
Qed.

Lemma str_lstrip_id (s : list ascii) :
  head s = None \/ (exists c, head s = Some c /\ str_is_space c = false) ->
  str_lstrip s = s.
Proof.
  destruct s as [ | c s]; [done | ]. cbn.
  intros [[=] | (d & [= <-] & ->)]. reflexivity.
Qed.

Lemma str_lstrip_idem (s : list ascii) :
  str_lstrip (str_lstrip s) = str_lstrip s.
Proof.
  apply str_lstrip_id. destruct (str_lstrip s) as [ | c s'] eqn:H; [by left | ].
  right. exists c. split; [done | ]. by eapply str_lstrip_head.
Qed.

Lemma str_lstrip_upper (s : list ascii) :
  str_lstrip (str_upper s) = str_upper (str_lstrip s).
Proof.
  induction s as [ | c s IH]; [done | ]. cbn.
  rewrite upper_char_space. by destruct (str_is_space c).
Qed.

Lemma str_strip_upper (s : list ascii) :
  str_strip (str_upper s) = str_upper (str_strip s).
Proof.
  unfold str_strip. rewrite str_lstrip_upper.
  unfold str_upper at 1. rewrite <- map_rev.
  fold (str_upper (rev (str_lstrip s))). rewrite str_lstrip_upper.
  unfold str_upper. by rewrite map_rev.
Qed.

(** The last character of a stripped suffix is the last of the whole. *)
Lemma last_str_lstrip (s : list ascii) :
  str_lstrip s <> [] -> last (str_lstrip s) = last s.
Proof.
  intros Hne. destruct (str_lstrip_split s) as (p & Hp & _).
  rewrite Hp at 2. rewrite last_app.
  destruct (last (str_lstrip s)) eqn:Hl; [done | ].
  apply last_None in Hl. done.
Qed.

Lemma rev_reverse {A : Type} (l : list A) : rev l = reverse l.
Proof. apply rev_alt. Qed.

Lemma str_strip_idem (s : list ascii) : str_strip (str_strip s) = str_strip s.
Proof.
  unfold str_strip. rewrite !rev_reverse.
  set (a := str_lstrip s). set (b := str_lstrip (reverse a)).
  assert (Hb : str_lstrip (reverse b) = reverse b).
  { apply str_lstrip_id. rewrite head_reverse.
    destruct (last b) as [c | ] eqn:Hc; [right | by left].
    exists c. split; [done | ].
    assert (Hne : str_lstrip (reverse a) <> []).
    { fold b. intros E. by rewrite E in Hc. }
    pose proof (last_str_lstrip (reverse a) Hne) as Hl. fold b in Hl.
    rewrite last_reverse, Hc in Hl.
    destruct a as [ | d a'] eqn:Ea; [done | ]. injection Hl as ->.
    by apply (str_lstrip_head s d a'). }
  rewrite Hb, reverse_involutive. unfold b. by rewrite str_lstrip_idem.
Qed.

(** Stripping keeps a part of the text. *)
Lemma str_lstrip_In (c : ascii) (s : list ascii) :
  In c (str_lstrip s) -> In c s.
Proof.
  destruct (str_lstrip_split s) as (p & Hp & _). intros H.
  rewrite Hp. apply in_or_app. by right.
Qed.

Lemma str_strip_In (c : ascii) (s : list ascii) :
  In c (str_strip s) -> In c s.
Proof.
  unfold str_strip. intros H. apply in_rev in H.
  apply str_lstrip_In in H. apply in_rev in H. by apply str_lstrip_In.
Qed.

Lemma str_upper_comma (s : list ascii) :
  In ","%char (str_upper s) -> In ","%char s.
Proof.
  unfold str_upper. rewrite in_map_iff. intros (c & Hc & Hin).
  by rewrite <- (upper_char_comma c Hc).
Qed.

(** No piece of a split holds the separator. *)
Lemma str_split_no_sep (sep : ascii) (s : list ascii) :
  Forall (fun piece => ~ In sep piece) (str_split sep s).
Proof.
  induction s as [ | c s IH]; [constructor; [intros [] | constructor] | ].
  cbn. destruct (Ascii.eqb_spec c sep) as [-> | Hne].
  - constructor; [intros [] | exact IH].
  - destruct (str_split sep s) as [ | piece pieces].
    { constructor; [ | constructor]. by intros [-> | []]. }
    inversion IH as [ | ? ? Hp Hps]; subst. constructor; [ | done].
    intros [-> | Hin]; [done | by apply Hp].
Qed.

Lemma str_split_app (sep : ascii) (piece rest : list ascii) :
  ~ In sep piece ->
  str_split sep (piece ++ sep :: rest) = piece :: str_split sep rest.
Proof.
  induction piece as [ | c piece IH]; intros Hno; cbn.
  - by rewrite Ascii.eqb_refl.
  - destruct (Ascii.eqb_spec c sep) as [-> | Hne]; [by destruct Hno; left | ].
    rewrite IH; [done | ]. intros Hin. apply Hno. by right.
Qed.

Lemma str_split_piece (sep : ascii) (piece : list ascii) :
  ~ In sep piece -> str_split sep piece = [piece].
Proof.
  induction piece as [ | c piece IH]; intros Hno; cbn; [done | ].
  destruct (Ascii.eqb_spec c sep) as [-> | Hne]; [by destruct Hno; left | ].
  rewrite IH; [done | ]. intros Hin. apply Hno. by right.
Qed.

(** Joining and splitting again gives the pieces back. *)
Lemma str_split_join (sep : ascii) (pieces : list (list ascii)) :
  pieces <> [] -> Forall (fun piece => ~ In sep piece) pieces ->
  str_split sep (str_join sep pieces) = pieces.
Proof.
  induction pieces as [ | piece rest IH]; [done | ]. intros _ Hall.
  inversion Hall as [ | ? ? Hp Hrest]; subst.
  destruct rest as [ | piece' rest'].
  - cbn. by apply str_split_piece.
  - change (str_join sep (piece :: piece' :: rest'))
      with (piece ++ sep :: str_join sep (piece' :: rest'))%list.
    rewrite str_split_app by done. by rewrite IH.
Qed.

Lemma tickers_of_clean (pieces : list (list ascii)) :
  Forall clean_ticker pieces -> tickers_of pieces = pieces.
Proof.
  unfold tickers_of. induction 1 as [ | t rest (Hne & Hs & Hu & _) _ IH];
    [done | ].
  cbn. rewrite Hs. destruct t as [ | c t']; [done | ]. cbn [length Nat.eqb negb].
  cbn [fmap list_fmap]. rewrite Hs, Hu. f_equal. exact IH.
Qed.

Lemma tickers_of_are_clean (pieces : list (list ascii)) :
  Forall (fun piece => ~ In ","%char piece) pieces ->
  Forall clean_ticker (tickers_of pieces).
Proof.
  unfold tickers_of. induction 1 as [ | t rest Hno _ IH]; [constructor | ].
  cbn. destruct (str_strip t) as [ | c s'] eqn:Hs; [exact IH | ].
  cbn [length Nat.eqb negb fmap list_fmap]. constructor; [ | exact IH].
  rewrite Hs. repeat split.
  - done.
  - rewrite str_strip_upper. by rewrite <- Hs, str_strip_idem.
  - apply str_upper_idem.
  - intros Hin. apply str_upper_comma in Hin. apply Hno.
    apply str_strip_In. by rewrite Hs.
Qed.

(** Stripping leaves nothing exactly of a text of whitespace. *)
Lemma str_lstrip_nil (s : list ascii) :
  str_lstrip s = [] <-> forallb str_is_space s = true.
Proof.
  induction s as [ | c s IH]; [done | ]. cbn.
  destruct (str_is_space c); [exact IH | ]. by split.
Qed.

Lemma str_strip_nil (s : list ascii) :
  str_strip s = [] <-> forallb str_is_space s = true.
Proof.
  unfold str_strip. rewrite <- str_lstrip_nil. split.
  - intros H. apply (f_equal (@rev ascii)) in H.
    rewrite rev_involutive in H. cbn in H.
    destruct (str_lstrip s) as [ | c s'] eqn:Hs; [done | ].
    apply str_lstrip_nil in H. rewrite forallb_forall in H.
    pose proof (str_lstrip_head s c s' Hs) as Hc.
    rewrite (H c) in Hc; [done | ]. apply in_rev. rewrite rev_involutive.
    by left.
  - intros ->. reflexivity.
Qed.

Lemma tickers_of_nil (pieces : list (list ascii)) :
  tickers_of pieces = []
  <-> Forall (fun t => forallb str_is_space t = true) pieces.
Proof.
  unfold tickers_of. induction pieces as [ | t pieces IH]; [done | ].
  cbn. rewrite Forall_cons, <- IH, <- str_strip_nil.
  destruct (str_strip t) as [ | c s]; cbn; [tauto | ].
  split; [done | by intros [[=] _] ].
Qed.

(** The pieces of a split are blank exactly when the text holds nothing but
    whitespace and separators. *)
Lemma str_split_blank (sep : ascii) (s : list ascii) :
  Forall (fun t => forallb str_is_space t = true) (str_split sep s)
  <-> Forall (fun c => str_is_space c = true \/ c = sep) s.
Proof.
  induction s as [ | c s IH]; [by split; repeat constructor | ].
  cbn. destruct (Ascii.eqb_spec c sep) as [-> | Hne].
  - rewrite !Forall_cons, IH. cbn. tauto.
  - destruct (str_split sep s) as [ | piece pieces] eqn:Hs.
    + rewrite Forall_singleton, Forall_cons, <- IH. cbn.
      rewrite andb_true_r. split; [intros ?; split; [by left | constructor]
                                  | by intros [[? | ?] _] ].
    + rewrite !Forall_cons, <- IH, Forall_cons. cbn.
      rewrite andb_true_iff. split; [tauto | ]. intros [[? | ?] ?]; tauto.
Qed.

Lemma parse_tickers_clean (tickers_input : string) :
  Forall (fun t => clean_ticker (list_ascii_of_string t))
    (parse_tickers tickers_input).
Proof.
  unfold parse_tickers. rewrite Forall_fmap.
  eapply Forall_impl; [apply tickers_of_are_clean, str_split_no_sep | ].
  intros t Ht. cbn. by rewrite list_ascii_of_string_of_list_ascii.
Qed.

End ParseLemmas.

(** ** The ticker list: properties *)

(** X14.  Every ticker the parser returns for an ASCII input is clean: it is
    not empty, has no whitespace at either end, no lower-case letter and no
    comma. *)
Theorem parsed_tickers_are_clean (tickers_input : string) :
  is_ascii (list_ascii_of_string tickers_input) = true ->
  Forall (fun t => clean_ticker (list_ascii_of_string t))
    (parse_tickers tickers_input).
Proof. intros _. apply parse_tickers_clean. Qed.

(** The default content of the text area. *)
Lemma parsed_tickers_are_clean_witness :
  is_ascii (list_ascii_of_string default_tickers_input) = true
  /\ parse_tickers default_tickers_input
     = ["AAPL"; "MSFT"; "INTC"; "IBM"; "CSCO"; "ORCL"; "TXN"; "AVGO"; "QCOM";
        "MU"]
  /\ Forall (fun t => clean_ticker (list_ascii_of_string t))
       (parse_tickers default_tickers_input).
Proof.
  split; [reflexivity | ]. split; [reflexivity | ].
  by apply (parsed_tickers_are_clean default_tickers_input).
Defined.

(** X15.  The parser undoes joining: a list of clean ASCII tickers joined
    with commas parses to that list, so parsing an ASCII input, joining and
    parsing again gives what parsing gave. *)
Theorem parse_join_round_trip :
  (forall tickers : list (list ascii),
     Forall (fun t => is_ascii t = true) tickers ->
     Forall clean_ticker tickers ->
     parse_tickers (string_of_list_ascii (str_join "," tickers))
     = string_of_list_ascii <$> tickers)
  /\ (forall tickers_input : string,
        is_ascii (list_ascii_of_string tickers_input) = true ->
        parse_tickers
          (string_of_list_ascii
             (str_join "," (list_ascii_of_string <$> parse_tickers tickers_input)))
        = parse_tickers tickers_input).
Proof.
  assert (H : forall tickers : list (list ascii),
            Forall clean_ticker tickers ->
            parse_tickers (string_of_list_ascii (str_join "," tickers))
            = string_of_list_ascii <$> tickers).
  { intros tickers Hclean. unfold parse_tickers.
    rewrite list_ascii_of_string_of_list_ascii. f_equal.
    destruct tickers as [ | t rest]; [reflexivity | ].
    rewrite str_split_join; [by apply tickers_of_clean | done | ].
    eapply Forall_impl; [exact Hclean | ]. by intros t' (_ & _ & _ & Hno). }
  split; [intros tickers _; apply H | ].
  intros tickers_input Hascii.
  pose proof (parse_tickers_clean tickers_input) as Hclean.
  rewrite H by (by rewrite Forall_fmap).
  rewrite <- list_fmap_compose.
  rewrite <- (list_fmap_id (parse_tickers tickers_input)) at 2.
  apply list_fmap_ext. intros i t _. cbn.
  apply string_of_list_ascii_of_string.
Qed.

(** X16.  The parser returns no ticker for an ASCII input exactly when the
    input holds nothing but whitespace and commas. *)
Theorem no_ticker_iff_blank_input (tickers_input : string) :
  is_ascii (list_ascii_of_string tickers_input) = true ->
  parse_tickers tickers_input = []
  <-> Forall (fun c => str_is_space c = true \/ c = ","%char)
        (list_ascii_of_string tickers_input).
Proof.
  intros _. unfold parse_tickers. rewrite <- str_split_blank, <- tickers_of_nil.
  split; [apply fmap_nil_inv | by intros ->].
Qed.

(** An input of two commas and blanks. *)
Lemma no_ticker_iff_blank_input_witness :
  is_ascii (list_ascii_of_string " , ,  ") = true
  /\ parse_tickers " , ,  " = []
  /\ Forall (fun c => str_is_space c = true \/ c = ","%char)
       (list_ascii_of_string " , ,  ").
Proof.
  split; [reflexivity | ]. split; [reflexivity | ].
  by apply (no_ticker_iff_blank_input " , ,  ").
Defined.
